(** * Agent factory: a shallow embedding of [agent_factory.py]

  The development follows the module top-down: the Python values that
  cross the remote boundary, the name sanitizer, the instruction
  composer, the data classes, the remote service as an oracle, and the
  methods of [AgentFactory] written in a small trace-and-error monad. *)

From Stdlib Require Import String Ascii List DecimalString.
From stdpp Require Import base option list strings gmap.

Set Warnings "-register-all".
Local Open Scope string_scope.

(** ** Python values at the remote boundary

    What the remote service hands back is loosely typed: the code probes
    it with [hasattr], [getattr], [isinstance] and truthiness.  A [value]
    is such a payload.  A [VDict] lists its entries in insertion order,
    keys distinct; lookup takes the first entry of a key. *)
Module Py.

Inductive value : Type :=
| VNone
| VBool (b : bool)
| VInt (n : Z)
| VStr (s : string)
| VList (elements : list value)
| VDict (entries : list (string * value))
| VObj (cls : string) (attrs : list (string * value)).

(** What the code can see raised: a failure of the remote service or of
    the SDK, carrying its text, and the two errors the interpreter raises
    when a probe is applied to the wrong shape. *)
Inductive exn : Type :=
| RemoteError (text : string)
| AttributeError (cls attr : string)
| TypeError (text : string).

Inductive result (A : Type) : Type :=
| Ok (a : A)
| Raised (e : exn).

Arguments Ok {A} a.
Arguments Raised {A} e.

(** [str(e)] *)
Definition exn_str (e : exn) : string :=
  match e with
  | RemoteError text => text
  | AttributeError cls attr =>
      "'" ++ cls ++ "' object has no attribute '" ++ attr ++ "'"
  | TypeError text => text
  end.

Definition type_name (v : value) : string :=
  match v with
  | VNone => "NoneType"
  | VBool _ => "bool"
  | VInt _ => "int"
  | VStr _ => "str"
  | VList _ => "list"
  | VDict _ => "dict"
  | VObj cls _ => cls
  end.

(** [bool(v)]; an object without [__bool__] or [__len__] is true. *)
Definition truthy (v : value) : bool :=
  match v with
  | VNone => false
  | VBool b => b
  | VInt n => negb (n =? 0)%Z
  | VStr s => negb (String.eqb s EmptyString)
  | VList elements => negb (Nat.eqb (length elements) 0)
  | VDict entries => negb (Nat.eqb (length entries) 0)
  | VObj _ _ => true
  end.

(** [v or d] *)
Definition or_else (v d : value) : value := if truthy v then v else d.

Fixpoint assoc {A : Type} (key : string) (entries : list (string * A)) : option A :=
  match entries with
  | [] => None
  | (k, v) :: rest => if String.eqb k key then Some v else assoc key rest
  end.

(** [d.get(key, dflt)] on the entries of a dict. *)
Definition dict_get (entries : list (string * value)) (key : string) (dflt : value) : value :=
  default dflt (assoc key entries).

(** The attribute [name] of [v], if it has one.  None of the names the
    code probes for is an attribute of a built-in value, so only objects
    answer. *)
Definition lookup_attr (v : value) (name : string) : option value :=
  match v with
  | VObj _ attrs => assoc name attrs
  | _ => None
  end.

(** [hasattr(v, name)] *)
Definition hasattr (v : value) (name : string) : bool :=
  match lookup_attr v name with
  | Some _ => true
  | None => false
  end.

(** [getattr(v, name, dflt)] *)
Definition getattr (v : value) (name : string) (dflt : value) : value :=
  default dflt (lookup_attr v name).

(** [v.name] *)
Definition attr (v : value) (name : string) : result value :=
  match lookup_attr v name with
  | Some x => Ok x
  | None => Raised (AttributeError (type_name v) name)
  end.

(** [len(v)] *)
Definition len (v : value) : result nat :=
  match v with
  | VStr s => Ok (String.length s)
  | VList elements => Ok (length elements)
  | VDict entries => Ok (length entries)
  | _ => Raised (TypeError ("object of type '" ++ type_name v ++ "' has no len()"))
  end.

(** The elements [for t in v] goes through: those of a list, the
    characters of a string, the keys of a dict. *)
Definition iter (v : value) : result (list value) :=
  match v with
  | VStr s => Ok (map (fun c => VStr (String c EmptyString)) (list_ascii_of_string s))
  | VList elements => Ok elements
  | VDict entries => Ok (map (fun kv => VStr (fst kv)) entries)
  | _ => Raised (TypeError ("'" ++ type_name v ++ "' object is not iterable"))
  end.

(** [v == s] for a string literal [s]. *)
Definition eq_str (v : value) (s : string) : bool :=
  match v with
  | VStr s' => String.eqb s' s
  | _ => false
  end.

(** An optional list under a truth test such as [if tool_names:], which
    fails for [None] and for the empty list alike. *)
Definition given {A : Type} (l : option (list A)) : list A := default [] l.

(** [sub in s] on strings. *)
Fixpoint contains (sub s : string) : bool :=
  String.prefix sub s
  || match s with
     | EmptyString => false
     | String _ rest => contains sub rest
     end.

End Py.

Import Py.

(** ** NameSanitizer: [AgentFactory._sanitize_agent_name]

  A Python [str] is read here as its UTF-8 bytes.  Every byte of a
  non-ASCII code point lies outside [[a-zA-Z0-9-]], so such a code point
  becomes a run of hyphens that the second substitution collapses, just
  as the single hyphen Python produces for it; from that step on both
  readings hold the same ASCII text, and the slice [[:63]] counts the
  same characters. *)
Module Sanitizer.

Definition hyphen : ascii := "-"%char.

Definition is_hyphen (c : ascii) : bool := Ascii.eqb c hyphen.

Definition in_range (lo hi : nat) (c : ascii) : bool :=
  ((lo <=? nat_of_ascii c) && (nat_of_ascii c <=? hi))%nat.

(** The class [[a-zA-Z0-9]]. *)
Definition is_alnum (c : ascii) : bool :=
  in_range 97 122 c || in_range 65 90 c || in_range 48 57 c.

(** The class [[a-zA-Z0-9-]]. *)
Definition allowed (c : ascii) : bool := is_alnum c || is_hyphen c.

(** [re.sub(r'[^a-zA-Z0-9-]', '-', name)] *)
Definition replace_invalid (l : list ascii) : list ascii :=
  map (fun c => if allowed c then c else hyphen) l.

Definition starts_with_hyphen (l : list ascii) : bool :=
  match l with
  | c :: _ => is_hyphen c
  | [] => false
  end.

(** [re.sub(r'-+', '-', sanitized)]: of every maximal run of hyphens
    the last one is kept. *)
Fixpoint collapse_hyphens (l : list ascii) : list ascii :=
  match l with
  | [] => []
  | c :: tl =>
      if is_hyphen c && starts_with_hyphen tl then collapse_hyphens tl
      else c :: collapse_hyphens tl
  end.

(** [str.lstrip('-')] *)
Fixpoint lstrip (l : list ascii) : list ascii :=
  match l with
  | [] => []
  | c :: tl => if is_hyphen c then lstrip tl else l
  end.

(** [str.rstrip('-')] *)
Definition rstrip (l : list ascii) : list ascii := rev (lstrip (rev l)).

(** [str.strip('-')] *)
Definition strip (l : list ascii) : list ascii := rstrip (lstrip l).

Definition max_length : nat := 63.

Definition fallback : list ascii := list_ascii_of_string "agent".

Definition sanitize_chars (l : list ascii) : list ascii :=
  let sanitized := replace_invalid l in
  let sanitized := collapse_hyphens sanitized in
  let sanitized := strip sanitized in
  let sanitized := take max_length sanitized in
  let sanitized := rstrip sanitized in
  match sanitized with
  | [] => fallback
  | _ => sanitized
  end.

Definition _sanitize_agent_name (name : string) : string :=
  string_of_list_ascii (sanitize_chars (list_ascii_of_string name)).

(** *** The naming grammar, as decidable predicates *)

Fixpoint no_double_hyphen (l : list ascii) : bool :=
  match l with
  | [] => true
  | c :: tl => negb (is_hyphen c && starts_with_hyphen tl) && no_double_hyphen tl
  end.

Definition head_alnum (l : list ascii) : bool :=
  match l with
  | c :: _ => is_alnum c
  | [] => false
  end.

(** What the docstring asks of a name: it starts and ends with an
    alphanumeric character, holds only alphanumerics and hyphens, no two
    hyphens in a row, and at most 63 characters. *)
Definition valid_chars (l : list ascii) : bool :=
  forallb allowed l && no_double_hyphen l
  && head_alnum l && head_alnum (rev l)
  && (length l <=? max_length)%nat.

Definition valid_name (s : string) : bool :=
  valid_chars (list_ascii_of_string s).

(** The grammar as the specification spells it,
    [[A-Za-z0-9][A-Za-z0-9-]*[A-Za-z0-9]]: a first alphanumeric, any
    number of allowed characters, a last alphanumeric (two characters at
    least), with no two hyphens in a row. *)
Definition matches_spec_grammar (s : string) : bool :=
  match list_ascii_of_string s with
  | [] => false
  | c :: tl =>
      is_alnum c
      && match rev tl with
         | [] => false
         | d :: middle => is_alnum d && forallb allowed middle
         end
      && no_double_hyphen (c :: tl)
  end.

(** Only allowed characters and no doubled hyphen: what every piece cut
    out of such a string inherits. *)
Definition clean (l : list ascii) : Prop :=
  forallb allowed l = true /\ no_double_hyphen l = true.

End Sanitizer.

Import Sanitizer.

(** ** InstructionComposer: [generate_agent_instructions] *)
Module Composer.

Definition nl : string := String (ascii_of_nat 10) EmptyString.

(** The default of the parameter [agent_personality]. *)
Definition default_personality : string := "profesional y amigable".

Definition header_purpose : string := "PROPÓSITO PRINCIPAL:".
Definition header_personality : string := "PERSONALIDAD:".
Definition header_capabilities : string := "CAPACIDADES:".
Definition header_rules : string := "REGLAS DE COMPORTAMIENTO:".
Definition header_format : string := "FORMATO DE RESPUESTA:".

Definition default_capabilities_text : string :=
  "- Responder preguntas de manera clara y concisa" ++ nl
  ++ "- Ayudar al usuario con sus consultas".

Definition default_rules_text : string :=
  "1. Siempre mantén un tono profesional y respetuoso" ++ nl
  ++ "2. Si no sabes algo, admítelo honestamente" ++ nl
  ++ "3. Sé conciso pero completo en tus respuestas" ++ nl
  ++ "4. Usa emojis cuando sea apropiado para hacer la conversación más amena".

(** [str(n)] for a natural number. *)
Definition decimal (n : nat) : string := NilZero.string_of_uint (Nat.to_uint n).

(** [f"- {cap}"] *)
Definition bullet (cap : string) : string := "- " ++ cap.

(** [f"{i+1}. {rule}"] *)
Definition numbered (i : nat) (rule : string) : string :=
  decimal (i + 1) ++ ". " ++ rule.

Definition capabilities_text (agent_capabilities : option (list string)) : string :=
  match given agent_capabilities with
  | [] => default_capabilities_text
  | caps => String.concat nl (map bullet caps)
  end.

Definition rules_text (agent_rules : option (list string)) : string :=
  match given agent_rules with
  | [] => default_rules_text
  | rules => String.concat nl (imap numbered rules)
  end.

Definition generate_agent_instructions
    (agent_purpose agent_personality : string)
    (agent_capabilities agent_rules : option (list string)) : string :=
  "Eres un asistente especializado con el siguiente propósito:" ++ nl
  ++ nl
  ++ header_purpose ++ nl
  ++ agent_purpose ++ nl
  ++ nl
  ++ header_personality ++ nl
  ++ agent_personality ++ nl
  ++ nl
  ++ header_capabilities ++ nl
  ++ capabilities_text agent_capabilities ++ nl
  ++ nl
  ++ header_rules ++ nl
  ++ rules_text agent_rules ++ nl
  ++ nl
  ++ header_format ++ nl
  ++ "- Responde de manera clara y estructurada" ++ nl
  ++ "- Usa viñetas o numeración cuando sea apropiado" ++ nl
  ++ "- Incluye ejemplos cuando ayuden a clarificar" ++ nl.

(** The phrases behind the two default texts. *)
Definition default_capabilities : list string :=
  [ "Responder preguntas de manera clara y concisa";
    "Ayudar al usuario con sus consultas" ].

Definition default_rules : list string :=
  [ "Siempre mantén un tono profesional y respetuoso";
    "Si no sabes algo, admítelo honestamente";
    "Sé conciso pero completo en tus respuestas";
    "Usa emojis cuando sea apropiado para hacer la conversación más amena" ].

(** [parts] occur in [s] one after the other, without overlap. *)
Fixpoint occur_in_order (parts : list string) (s : string) : Prop :=
  match parts with
  | [] => True
  | p :: rest => exists before after, s = before ++ p ++ after /\ occur_in_order rest after
  end.

End Composer.

Import Composer.

(** ** Data classes *)

Record AgentConfig : Type := {
  config_id : string;
  config_name : string;
  config_description : string;
  config_instructions : string;
  config_created_at : string
}.

(** The fields filled from a remote payload hold whatever value it
    carried; a dataclass does not check its annotations. *)
Record FoundryAgent : Type := {
  agent_id : value;
  agent_name : value;
  agent_description : value;
  agent_model : value;
  agent_created_at : string;
  has_tools : bool;
  tool_types : option (list value)
}.

Record FoundryTool : Type := {
  tool_id : string;
  tool_name : string;
  tool_target : string;
  tool_type : string
}.

(** [azure.ai.projects.models.MCPTool], with the fields the code sets. *)
Record MCPTool : Type := {
  server_label : string;
  server_url : string;
  project_connection_id : string;
  allowed_tools : list string;
  require_approval : string
}.

(** [azure.ai.projects.models.PromptAgentDefinition] *)
Record PromptAgentDefinition : Type := {
  def_model : string;
  def_instructions : string;
  def_tools : option (list MCPTool)
}.

(** A connection of the remote inventory.  [conn_target] is [None] when
    the attribute is missing or [None]; [conn_type] is the text [str]
    gives for the attribute [type], empty when it is missing. *)
Record Connection : Type := {
  conn_id : string;
  conn_name : string;
  conn_target : option string;
  conn_type : string
}.

(** ** The remote service and the trace of a call *)

(** An asynchronous iterator: the items it yields and the exception it
    ends with, if any. *)
Record stream (A : Type) : Type := {
  items : list A;
  failure : option exn
}.

Arguments items {A} s.
Arguments failure {A} s.

(** What the service answers.  Each method of the factory opens its own
    credential and client and asks the service through them.
    [openai_client] is [client.get_openai_client()]: it hands out the
    sub-client of the completion call, or raises. *)
Record Remote : Type := {
  agents_list : stream value;
  connections_list : stream Connection;
  agents_get : string -> result value;
  agents_create : string -> PromptAgentDefinition -> result value;
  openai_client : result unit;
  responses_create : string -> value -> string -> result value;
  run_stream : string -> string -> string -> stream value
}.

Inductive call : Type :=
| Connect
| Release
| AgentsList
| ConnectionsList
| AgentsGet (agent_id : string)
| AgentsCreate (name : string) (definition : PromptAgentDefinition)
| ResponsesCreate (message : string) (agent_name : value) (agent_version : string)
| RunStream (name instructions message : string).

(** The lines [create_foundry_agent] prints. *)
Inductive line : Type :=
| LineCalled
| LineName (name sanitized_name : string)
| LineToolNames (tool_names : option (list string))
| LineProcessing (count : nat)
| LineAvailable (names : list string)
| LineWarning (tool_name : string).

(** [f"Warning: Tool '{tool_name}' not found in connections"] *)
Definition warning_text (tool_name : string) : string :=
  "Warning: Tool '" ++ tool_name ++ "' not found in connections".

Inductive event : Type :=
| Call (c : call)
| Print (l : line)
| Yield (fragment : value).

(** A computation: the events it performs, in order, and how it ends.
    For an asynchronous generator the [Yield] events are the sequence it
    produces, [Ok] is its exhaustion and [Raised] an exception reaching
    the consumer. *)
Definition M (A : Type) : Type := (list event * result A)%type.

Definition ret {A : Type} (a : A) : M A := ([], Ok a).

Definition bind {A B : Type} (m : M A) (k : A -> M B) : M B :=
  match m with
  | (t, Ok a) => let (t', r) := k a in (t ++ t', r)%list
  | (t, Raised e) => (t, Raised e)
  end.

Notation "'let*' x ':=' m 'in' k" := (bind m (fun x => k))
  (at level 10, x pattern, m at level 100, k at level 200, only parsing).

Definition lift {A : Type} (r : result A) : M A := ([], r).

Definition raise {A : Type} (e : exn) : M A := ([], Raised e).

Definition emit (e : event) : M unit := ([e], Ok tt).

(** [try: m except Exception as e: handler e] *)
Definition try_except {A : Type} (m : M A) (handler : exn -> M A) : M A :=
  match m with
  | (t, Raised e) => let (t', r) := handler e in (t ++ t', r)%list
  | _ => m
  end.

(** [async with AzureCliCredential() as credential: ... async with client:]
    the session is released on the way out, whatever happened inside. *)
Definition with_session {A : Type} (body : M A) : M A :=
  let (t, r) := body in (Call Connect :: t ++ [Call Release], r)%list.

(** [for x in l: body x] *)
Fixpoint for_each {A : Type} (l : list A) (body : A -> M unit) : M unit :=
  match l with
  | [] => ret tt
  | x :: rest => let* _ := body x in for_each rest body
  end.

(** [async for x in s: body x] *)
Definition async_for {A : Type} (s : stream A) (body : A -> M unit) : M unit :=
  let* _ := for_each (items s) body in
  match failure s with
  | Some e => raise e
  | None => ret tt
  end.

(** The same loop when its body only builds up a value. *)
Definition async_fold {A S : Type} (s : stream A) (step : S -> A -> M S) (init : S) : M S :=
  let* acc := foldl (fun m x => let* acc := m in step acc x) (ret init) (items s) in
  match failure s with
  | Some e => raise e
  | None => ret acc
  end.

(** Projections of a trace. *)
Definition fragments (t : list event) : list value :=
  omap (fun e => match e with Yield v => Some v | _ => None end) t.

Definition calls (t : list event) : list call :=
  omap (fun e => match e with Call c => Some c | _ => None end) t.

Definition warnings (t : list event) : list string :=
  omap (fun e => match e with Print (LineWarning n) => Some n | _ => None end) t.

Definition submitted (t : list event) : list (string * PromptAgentDefinition) :=
  omap (fun e => match e with
                 | Call (AgentsCreate name definition) => Some (name, definition)
                 | _ => None
                 end) t.

(** ** [AgentFactory] *)

Record AgentFactory : Type := {
  project_endpoint : string;
  model_deployment : string;
  agents : gmap string AgentConfig
}.

(** [create_agent_config]; the fresh [uuid.uuid4()] and the clock's
    [datetime.now().isoformat()] are taken as inputs.  It returns the
    configuration and the factory with the registry updated. *)
Definition create_agent_config (self : AgentFactory) (uuid4 now : string)
    (name description purpose personality : string)
    (capabilities rules : option (list string)) : AgentConfig * AgentFactory :=
  let agent_id := String.substring 0 8 uuid4 in
  let instructions := generate_agent_instructions purpose personality capabilities rules in
  let config := {| config_id := agent_id; config_name := name;
                   config_description := description;
                   config_instructions := instructions;
                   config_created_at := now |} in
  (config, {| project_endpoint := project_endpoint self;
              model_deployment := model_deployment self;
              agents := <[agent_id := config]> (agents self) |}).

Definition get_agent_config (self : AgentFactory) (agent_id : string) : option AgentConfig :=
  agents self !! agent_id.

(** *** [list_foundry_agents] *)

(** The model and the tools of a definition, in either of its shapes:
    [isinstance(definition, dict)] selects the first branch. *)
Definition definition_fields (definition : value) : value * value :=
  match definition with
  | VDict entries =>
      (or_else (dict_get entries "model" (VStr "")) (VStr ""),
       dict_get entries "tools" (VList []))
  | _ =>
      (or_else (getattr definition "model" (VStr "")) (VStr ""),
       or_else (getattr definition "tools" (VList [])) (VList []))
  end.

(** The kind tag of a tool entry, a dict or an object:
    [t.get('type', 'unknown')] or [getattr(t, 'type', 'unknown')]. *)
Definition type_of_tool (t : value) : value :=
  match t with
  | VDict entries => dict_get entries "type" (VStr "unknown")
  | _ => getattr t "type" (VStr "unknown")
  end.

(** [if tools and len(tools) > 0: ...], giving [has_tools] and
    [tool_types]. *)
Definition process_tools (tools : value) : M (bool * list value) :=
  if truthy tools then
    let* n := lift (len tools) in
    if (0 <? n)%nat then
      let* ts := lift (iter tools) in
      ret (true, map type_of_tool ts)
    else ret (false, [])
  else ret (false, []).

(** The body of the loop over the agents; [py_str] is the built-in
    [str]. *)
Definition summarize (py_str : value -> string) (agent : value) : M FoundryAgent :=
  let versions := getattr agent "versions" VNone in
  let unversioned := ret (VStr "", VStr "", "", false, []) in
  let* (model, description, created_at, has, types) :=
    (if hasattr agent "versions" && truthy versions then
       let latest :=
         if hasattr versions "latest" then getattr versions "latest" VNone else VNone in
       if truthy latest then
         let definition := getattr latest "definition" VNone in
         let* (model, has, types) :=
           (if truthy definition then
              let (model, tools) := definition_fields definition in
              let* (has, types) := process_tools tools in
              ret (model, has, types)
            else ret (VStr "", false, [])) in
         let description := or_else (getattr latest "description" (VStr "")) (VStr "") in
         let created_at :=
           if hasattr latest "created_at"
           then py_str (getattr latest "created_at" (VStr ""))
           else "" in
         ret (model, description, created_at, has, types)
       else unversioned
     else unversioned) in
  let* id := lift (attr agent "id") in
  let* name := lift (attr agent "name") in
  ret {| agent_id := id;
         agent_name := or_else name (VStr "Sin nombre");
         agent_description := description;
         agent_model := model;
         agent_created_at := created_at;
         has_tools := has;
         tool_types := match types with [] => None | _ => Some types end |}.

Definition list_foundry_agents (py_str : value -> string) (remote : Remote)
  : M (list FoundryAgent) :=
  with_session
    (let* _ := emit (Call AgentsList) in
     async_fold (agents_list remote)
       (fun found agent => let* a := summarize py_str agent in ret (found ++ [a])%list)
       []).

(** *** [list_foundry_tools] *)

(** [getattr(conn, 'target', '') or ''] *)
Definition conn_url (conn : Connection) : string := default "" (conn_target conn).

Definition list_foundry_tools (remote : Remote) : M (list FoundryTool) :=
  with_session
    (let* _ := emit (Call ConnectionsList) in
     async_fold (connections_list remote)
       (fun tools conn =>
          ret (if contains "REMOTE_TOOL" (conn_type conn)
               then (tools ++ [{| tool_id := conn_id conn; tool_name := conn_name conn;
                                  tool_target := conn_url conn; tool_type := "mcp" |}])%list
               else tools))
       []).

(** *** [create_foundry_agent] *)

(** [d[key] = v] on a dict kept in insertion order. *)
Fixpoint dict_set {A : Type} (key : string) (v : A) (d : list (string * A))
  : list (string * A) :=
  match d with
  | [] => [(key, v)]
  | (k, x) :: rest =>
      if String.eqb k key then (k, v) :: rest else (k, x) :: dict_set key v rest
  end.

(** The entry of [connections_map] for a connection: its id and url. *)
Definition conn_info (conn : Connection) : string * string :=
  (conn_id conn, conn_url conn).

Definition descriptor (tool_name : string) (info : string * string) : MCPTool :=
  {| server_label := tool_name;
     server_url := snd info;
     project_connection_id := fst info;
     allowed_tools := [];
     require_approval := "never" |}.

(** The loop [for tool_name in tool_names], [tools] being the list built
    so far. *)
Fixpoint resolve_tools (connections_map : list (string * (string * string)))
    (tool_names : list string) (tools : list MCPTool) : M (list MCPTool) :=
  match tool_names with
  | [] => ret tools
  | tool_name :: rest =>
      match assoc tool_name connections_map with
      | Some info =>
          resolve_tools connections_map rest (tools ++ [descriptor tool_name info])%list
      | None =>
          let* _ := emit (Print (LineWarning tool_name)) in
          resolve_tools connections_map rest tools
      end
  end.

(** The block [tools = []; if tool_names: ...]: the connections are
    enumerated into [connections_map], each requested name is looked up. *)
Definition build_tools (remote : Remote) (tool_names : option (list string))
  : M (list MCPTool) :=
  match given tool_names with
  | [] => ret []
  | names =>
      let* _ := emit (Print (LineProcessing (length names))) in
      let* _ := emit (Call ConnectionsList) in
      let* connections_map :=
        async_fold (connections_list remote)
          (fun m conn => ret (dict_set (conn_name conn) (conn_info conn) m)) [] in
      let* _ := emit (Print (LineAvailable (map fst connections_map))) in
      resolve_tools connections_map names []
  end.

Definition create_foundry_agent (remote : Remote) (name instructions model : string)
    (tool_names : option (list string)) : M FoundryAgent :=
  let sanitized_name := _sanitize_agent_name name in
  let* _ := emit (Print LineCalled) in
  let* _ := emit (Print (LineName name sanitized_name)) in
  let* _ := emit (Print (LineToolNames tool_names)) in
  with_session
    (let* tools := build_tools remote tool_names in
     let definition :=
       {| def_model := model;
          def_instructions := instructions;
          def_tools := match tools with [] => None | _ => Some tools end |} in
     let* _ := emit (Call (AgentsCreate sanitized_name definition)) in
     let* agent := lift (agents_create remote sanitized_name definition) in
     let* id := lift (attr agent "id") in
     let* agent_name := lift (attr agent "name") in
     ret {| agent_id := id;
            agent_name := or_else agent_name (VStr sanitized_name);
            agent_description := VStr "";
            agent_model := VStr model;
            agent_created_at := "";
            has_tools := false;
            tool_types := None |}).

(** *** [chat_with_foundry_agent] *)

Definition known_limitation : string :=
  "⚠️ Error del servidor (500): Este agente tiene MCP tools configuradas. Actualmente hay un problema conocido con la API de Azure AI Foundry al chatear con agentes que tienen MCP tools a través del SDK. Por favor, prueba con este agente directamente en el portal de Azure AI Foundry.".

(** [f"Error al chatear con el agente: {error_msg}"] *)
Definition raw_error (error_msg : string) : string :=
  "Error al chatear con el agente: " ++ error_msg.

(** One step of [any(t.get('type') == 'mcp' for t in tools if isinstance(t, dict))]. *)
Definition is_mcp_tool (t : value) : bool :=
  match t with
  | VDict entries => eq_str (dict_get entries "type" VNone) "mcp"
  | _ => false
  end.

(** The latest version of the agent and whether it has MCP tools; only a
    definition that passes [isinstance(definition, dict)] is looked into. *)
Definition inspect_agent (py_str : value -> string) (agent : value) : M (string * bool) :=
  let versions := getattr agent "versions" VNone in
  if hasattr agent "versions" && truthy versions then
    let latest := getattr versions "latest" VNone in
    if hasattr versions "latest" && truthy latest then
      let agent_version :=
        if hasattr latest "version" then py_str (getattr latest "version" VNone) else "1" in
      match getattr latest "definition" VNone with
      | VDict entries =>
          let tools := dict_get entries "tools" (VList []) in
          if truthy (VDict entries) && truthy tools then
            let* ts := lift (iter tools) in
            ret (agent_version, existsb is_mcp_tool ts)
          else ret (agent_version, false)
      | _ => ret (agent_version, false)
      end
    else ret ("1", false)
  else ret ("1", false).

(** [for content_part in output_item.content: if hasattr(content_part,
    'text'): yield content_part.text] *)
Definition yield_texts (content : value) : M unit :=
  let* parts := lift (iter content) in
  for_each parts
    (fun content_part =>
       if hasattr content_part "text"
       then emit (Yield (getattr content_part "text" VNone))
       else ret tt).

(** The body of [for output_item in response.output]. *)
Definition extract_output (output_item : value) : M unit :=
  let content := getattr output_item "content" VNone in
  if hasattr output_item "content" && truthy content then yield_texts content
  else if hasattr output_item "type" && eq_str (getattr output_item "type" VNone) "message"
  then (if hasattr output_item "content" then yield_texts content else ret tt)
  else ret tt.

(** The [except] branch. *)
Definition classify (has_mcp_tools : bool) (e : exn) : M unit :=
  let error_msg := exn_str e in
  if contains "500" error_msg && has_mcp_tools
  then emit (Yield (VStr known_limitation))
  else emit (Yield (VStr (raw_error error_msg))).

(** [client.get_openai_client()] is called after the inspection and
    before the [try]: what it raises is not caught. *)
Definition chat_with_foundry_agent (py_str : value -> string) (remote : Remote)
    (agent_id message : string) (thread_id : option string) : M unit :=
  with_session
    (let* _ := emit (Call (AgentsGet agent_id)) in
     let* agent := lift (agents_get remote agent_id) in
     let* agent_name := lift (attr agent "name") in
     let* (agent_version, has_mcp_tools) := inspect_agent py_str agent in
     let* _ := lift (openai_client remote) in
     try_except
       (let* _ := emit (Call (ResponsesCreate message agent_name agent_version)) in
        let* response := lift (responses_create remote message agent_name agent_version) in
        let output := getattr response "output" VNone in
        if hasattr response "output" && truthy output then
          let* output_items := lift (iter output) in
          for_each output_items extract_output
        else ret tt)
       (classify has_mcp_tools)).

(** *** [chat_with_agent] *)

(** [f"Error: Agente '{agent_id}' no encontrado."] *)
Definition not_found (agent_id : string) : string :=
  "Error: Agente '" ++ agent_id ++ "' no encontrado.".

Definition chat_with_agent (self : AgentFactory) (remote : Remote)
    (agent_id message : string) (thread_id : option string) : M unit :=
  match get_agent_config self agent_id with
  | None => emit (Yield (VStr (not_found agent_id)))
  | Some config =>
      with_session
        (let* _ := emit (Call (RunStream (config_name config)
                                 (config_instructions config) message)) in
         async_for (run_stream remote (config_name config)
                      (config_instructions config) message)
           (fun chunk =>
              let* text := lift (attr chunk "text") in
              if truthy text then emit (Yield text) else ret tt))
  end.

(** ** Notions the properties are stated with *)

(** The two tool fields of a summary agree. *)
Definition consistent (a : FoundryAgent) : Prop :=
  (has_tools a = true <-> exists t ts, tool_types a = Some (t :: ts))
  /\ (has_tools a = false -> tool_types a = None).

(** The connection a name resolves to: the last one of the inventory
    that bears it. *)
Fixpoint last_named (n : string) (inventory : list Connection) : option Connection :=
  match inventory with
  | [] => None
  | conn :: rest =>
      match last_named n rest with
      | Some found => Some found
      | None => if String.eqb (conn_name conn) n then Some conn else None
      end
  end.

Definition has_connection (inventory : list Connection) (n : string) : bool :=
  match last_named n inventory with
  | Some _ => true
  | None => false
  end.

(** One descriptor for each requested name that resolves, in request
    order. *)
Definition resolved_descriptors (inventory : list Connection) (names : list string)
  : list MCPTool :=
  omap (fun n => (fun conn => descriptor n (conn_info conn)) <$> last_named n inventory)
       names.

(** A remote agent whose latest version carries [definition] next to the
    attributes [latest_attrs]. *)
Definition remote_agent (id name : value) (latest_attrs : list (string * value))
    (definition : value) : value :=
  VObj "AgentDetails"
    [ ("id", id); ("name", name);
      ("versions",
       VObj "AgentVersions"
         [ ("latest",
            VObj "AgentVersionDetails" (("definition", definition) :: latest_attrs)) ]) ].

(** An agent up to the shape of its definition: the entries [shaped_entries]
    arrive as a keyed mapping or as the attributes of an object of class
    [shaped_cls]. *)
Record shaped_agent : Type := {
  shaped_id : value;
  shaped_name : value;
  shaped_latest : list (string * value);
  shaped_cls : string;
  shaped_entries : list (string * value)
}.

Definition as_mapping (a : shaped_agent) : value :=
  remote_agent (shaped_id a) (shaped_name a) (shaped_latest a) (VDict (shaped_entries a)).

Definition as_object (a : shaped_agent) : value :=
  remote_agent (shaped_id a) (shaped_name a) (shaped_latest a)
    (VObj (shaped_cls a) (shaped_entries a)).

(** The service [remote] with another enumeration of agents. *)
Definition with_agents (remote : Remote) (listing : stream value) : Remote :=
  {| agents_list := listing;
     connections_list := connections_list remote;
     agents_get := agents_get remote;
     agents_create := agents_create remote;
     openai_client := openai_client remote;
     responses_create := responses_create remote;
     run_stream := run_stream remote |}.

(** The definition [create_foundry_agent] builds from the resolved
    descriptors. *)
Definition definition_of (model instructions : string) (tools : list MCPTool)
  : PromptAgentDefinition :=
  {| def_model := model;
     def_instructions := instructions;
     def_tools := match tools with [] => None | _ => Some tools end |}.

(** What a descriptor carries of the connection it was resolved to: the
    server address is the target of the connection, the empty string when
    the connection has none. *)
Definition attaches (inventory : list Connection) (d : MCPTool) : Prop :=
  exists conn,
    last_named (server_label d) inventory = Some conn
    /\ conn_name conn = server_label d
    /\ server_url d = match conn_target conn with
                      | Some url => url
                      | None => EmptyString
                      end
    /\ project_connection_id d = conn_id conn
    /\ allowed_tools d = []
    /\ require_approval d = "never".

(** ** Sample data

    A small remote state, used to run the methods: one agent with an MCP
    tool, one without, one connection, a creation that answers without a
    name and a completion call that fails with a server error. *)

Definition sample_str (v : value) : string :=
  match v with
  | VStr s => s
  | _ => type_name v
  end.

Definition mcp_tool : value :=
  VDict [("type", VStr "mcp"); ("server_label", VStr "payments")].

(** The tool-bearing agent; [shape] is [VDict] or [VObj cls]. *)
Definition tool_bearing (shape : list (string * value) -> value) : value :=
  remote_agent (VStr "agent-1") (VStr "FavoritePaymentsAgent")
    [("version", VStr "2"); ("description", VNone); ("created_at", VStr "2025-01-01")]
    (shape [("model", VStr "gpt-4o"); ("tools", VList [mcp_tool])]).

Definition tool_free : value :=
  remote_agent (VStr "agent-2") (VStr "JokeAgent") [("version", VStr "1")]
    (VObj "PromptAgentDefinition" [("model", VStr "gpt-4o"); ("tools", VNone)]).

Definition server_error : exn := RemoteError "Error code: 500 - Internal Server Error".

Definition known_connection : Connection :=
  {| conn_id := "/connections/known";
     conn_name := "known";
     conn_target := Some "https://known.example/mcp";
     conn_type := "ConnectionType.REMOTE_TOOL" |}.

(** The sample service; [fetched] is the agent [agents.get] returns. *)
Definition sample_remote (fetched : value) : Remote :=
  {| agents_list := {| items := [tool_bearing VDict; tool_free]; failure := None |};
     connections_list := {| items := [known_connection]; failure := None |};
     agents_get := fun _ => Ok fetched;
     agents_create := fun _ _ =>
       Ok (VObj "AgentDetails" [("id", VStr "agent-3"); ("name", VNone)]);
     openai_client := Ok tt;
     responses_create := fun _ _ _ => Raised server_error;
     run_stream := fun _ _ _ => {| items := []; failure := None |} |}.

Definition sample_factory : AgentFactory :=
  {| project_endpoint := "https://example.invalid/api/projects/demo";
     model_deployment := "gpt-4o";
     agents := ∅ |}.

Definition known_descriptor : MCPTool :=
  {| server_label := "known";
     server_url := "https://known.example/mcp";
     project_connection_id := "/connections/known";
     allowed_tools := [];
     require_approval := "never" |}.

(** What the listing and the creation return on the sample service. *)
Definition sample_listing : list FoundryAgent :=
  [ {| agent_id := VStr "agent-1"; agent_name := VStr "FavoritePaymentsAgent";
       agent_description := VStr ""; agent_model := VStr "gpt-4o";
       agent_created_at := "2025-01-01"; has_tools := true;
       tool_types := Some [VStr "mcp"] |};
    {| agent_id := VStr "agent-2"; agent_name := VStr "JokeAgent";
       agent_description := VStr ""; agent_model := VStr "gpt-4o";
       agent_created_at := ""; has_tools := false; tool_types := None |} ].

Definition sample_created : FoundryAgent :=
  {| agent_id := VStr "agent-3"; agent_name := VStr "FAQ-Bot";
     agent_description := VStr ""; agent_model := VStr "gpt-4o";
     agent_created_at := ""; has_tools := false; tool_types := None |}.

Definition sample_creation : M FoundryAgent :=
  create_foundry_agent (sample_remote VNone) "FAQ Bot!!" "Answer FAQs" "gpt-4o"
    (Some ["known"; "unknown"]).

(** ** The callers and helpers around the factory *)

(** [AgentFactory.__init__]: the registry starts empty. *)
Definition new_factory (endpoint deployment : string) : AgentFactory :=
  {| project_endpoint := endpoint; model_deployment := deployment; agents := ∅ |}.

(** [app.lifespan] up to its [yield]: without a project endpoint (unset or
    empty) it raises a [RuntimeError], whose text is returned on the left;
    otherwise it builds the global factory. *)
Definition lifespan (PROJECT_ENDPOINT : option string) (MODEL_DEPLOYMENT : string)
  : string + AgentFactory :=
  match PROJECT_ENDPOINT with
  | None | Some EmptyString => inl "AZURE_AI_PROJECT_ENDPOINT no está configurado"
  | Some endpoint => inr (new_factory endpoint MODEL_DEPLOYMENT)
  end.

(** What an endpoint of [app.py] answers: a body, or the [HTTPException]
    it raises. *)
Inductive http (A : Type) : Type :=
| Response (body : A)
| HTTPException (status_code : nat) (detail : string).

Arguments Response {A} body.
Arguments HTTPException {A} status_code detail.

Record AgentResponse : Type := {
  response_id : string;
  response_name : string;
  response_description : string;
  response_created_at : string
}.

(** [app.get_agent]; [agent_factory] is the global set by [lifespan]. *)
Definition get_agent (agent_factory : option AgentFactory) (agent_id : string)
  : http AgentResponse :=
  match agent_factory with
  | None => HTTPException 500 "Agent factory not initialized"
  | Some factory =>
      match get_agent_config factory agent_id with
      | None => HTTPException 404 "Agent not found"
      | Some config =>
          Response {| response_id := config_id config;
                      response_name := config_name config;
                      response_description := config_description config;
                      response_created_at := config_created_at config |}
      end
  end.

(** The loop of [favpayments_agent.get_connection_info]: it returns at
    the first connection of the name and so never reaches what comes after
    it, the end of the enumeration included. *)
Fixpoint scan_connections (connection_name : string) (ending : option exn)
    (conns : list Connection) : M (option (string * string)) :=
  match conns with
  | [] =>
      match ending with
      | Some e => raise e
      | None => ret None
      end
  | conn :: rest =>
      if String.eqb (conn_name conn) connection_name
      then ret (Some (conn_id conn, conn_url conn))
      else scan_connections connection_name ending rest
  end.

Definition get_connection_info (remote : Remote) (connection_name : string)
  : M (option (string * string)) :=
  let* _ := emit (Call ConnectionsList) in
  scan_connections connection_name (failure (connections_list remote))
    (items (connections_list remote)).

(** ** Further notions the properties are stated with *)

(** The alphanumeric characters of a string, in order. *)
Definition alnums (s : string) : list ascii :=
  List.filter is_alnum (list_ascii_of_string s).

(** A name is held as the bytes of its UTF-8 encoding: a character is a
    byte below 128, or a lead byte followed by continuation bytes (the
    bytes 128 to 191).  Its characters are therefore as many as its bytes
    that are not continuation bytes. *)
Definition is_continuation (c : ascii) : bool := in_range 128 191 c.

Definition starts_with_continuation (l : list ascii) : bool :=
  match l with
  | c :: _ => is_continuation c
  | [] => false
  end.

Definition characters (s : string) : nat :=
  length (List.filter (fun c => negb (is_continuation c)) (list_ascii_of_string s)).

(** Every continuation byte after the first byte follows a byte that is
    not below 128. *)
Fixpoint continuations_attached (l : list ascii) : bool :=
  match l with
  | [] => true
  | c :: tl =>
      (negb (starts_with_continuation tl) || (128 <=? nat_of_ascii c)%nat)
      && continuations_attached tl
  end.

(** What the encoding of every string satisfies: no continuation byte
    stands first or follows a byte below 128. *)
Definition encoded (s : string) : bool :=
  negb (starts_with_continuation (list_ascii_of_string s))
  && continuations_attached (list_ascii_of_string s).

(** The tool [list_foundry_tools] makes of a connection. *)
Definition tool_of (conn : Connection) : FoundryTool :=
  {| tool_id := conn_id conn; tool_name := conn_name conn;
     tool_target := conn_url conn; tool_type := "mcp" |}.

Definition is_remote_tool (conn : Connection) : bool :=
  contains "REMOTE_TOOL" (conn_type conn).

(** The first connection of the inventory that bears a name. *)
Definition first_named (n : string) (inventory : list Connection) : option Connection :=
  List.find (fun conn => String.eqb (conn_name conn) n) inventory.

(** The events that open and close a session. *)
Definition is_session_call (c : call) : bool :=
  match c with
  | Connect | Release => true
  | _ => false
  end.

(** A trace that opens one session, works inside it and releases it at
    the end; [before] is what happened ahead of the session. *)
Definition in_one_session (before t : list event) : Prop :=
  exists inner,
    t = (before ++ Call Connect :: inner ++ [Call Release])%list
    /\ forallb (fun c => negb (is_session_call c)) (calls inner) = true.

(** A computation that neither opens nor releases a session. *)
Definition tame {A : Type} (m : M A) : Prop :=
  forallb (fun c => negb (is_session_call c)) (calls (fst m)) = true.

(** The texts an output item contributes: those of the parts of its
    content that have one. *)
Definition part_texts (parts : list value) : list value :=
  omap (fun content_part => lookup_attr content_part "text") parts.

Definition item_texts (output_item : value) : list value :=
  match lookup_attr output_item "content" with
  | Some content =>
      match iter content with
      | Ok parts => part_texts parts
      | Raised _ => []
      end
  | None => []
  end.

(** An output item whose content, if any, can be iterated. *)
Definition iterable_content (output_item : value) : bool :=
  match lookup_attr output_item "content" with
  | None | Some (VStr _) | Some (VList _) | Some (VDict _) => true
  | Some _ => false
  end.

(** The body of the [try] of [chat_with_foundry_agent]: the completion
    call and the traversal of its answer. *)
Definition completion (remote : Remote) (message : string) (agent_name : value)
    (agent_version : string) : M unit :=
  let* _ := emit (Call (ResponsesCreate message agent_name agent_version)) in
  let* response := lift (responses_create remote message agent_name agent_version) in
  let output := getattr response "output" VNone in
  if hasattr response "output" && truthy output then
    let* output_items := lift (iter output) in
    for_each output_items extract_output
  else ret tt.

(** The version a chat addresses, read off the attributes of the latest
    version of the agent. *)
Definition addressed_version (py_str : value -> string)
    (latest_attrs : list (string * value)) : string :=
  match assoc "version" latest_attrs with
  | Some version => py_str version
  | None => "1"
  end.

(** The service [remote] answering [agents.get] with [fetched]. *)
Definition with_fetched (remote : Remote) (fetched : value) : Remote :=
  {| agents_list := agents_list remote;
     connections_list := connections_list remote;
     agents_get := fun _ => Ok fetched;
     agents_create := agents_create remote;
     openai_client := openai_client remote;
     responses_create := responses_create remote;
     run_stream := run_stream remote |}.

(** ** More sample data

    A service where everything fails, one that answers a chat, and a
    factory with one registered configuration. *)

Definition malformed_agent : value :=
  remote_agent (VStr "agent-9") (VStr "Broken") [] (VDict [("tools", VInt 5)]).

Definition chunk (text : value) : value :=
  VObj "AgentRunResponseUpdate" [("text", text)].

Definition broken_remote : Remote :=
  {| agents_list := {| items := [tool_free; malformed_agent]; failure := None |};
     connections_list := {| items := [known_connection]; failure := Some server_error |};
     agents_get := fun _ => Raised server_error;
     agents_create := fun _ _ => Raised server_error;
     openai_client := Ok tt;
     responses_create := fun _ _ _ => Raised server_error;
     run_stream := fun _ _ _ =>
       {| items := [chunk (VStr "Hola"); chunk (VStr ""); chunk (VStr " mundo")];
          failure := Some server_error |} |}.

Definition text_part (s : string) : value :=
  VObj "ResponseOutputText" [("type", VStr "output_text"); ("text", VStr s)].

Definition sample_output : list value :=
  [ VObj "ResponseOutputMessage"
      [ ("type", VStr "message");
        ("content", VList [text_part "Hola"; VObj "Refusal" []; text_part " mundo"]) ];
    VObj "ResponseReasoningItem" [("type", VStr "reasoning")] ].

Definition sample_response : value := VObj "Response" [("output", VList sample_output)].

Definition second_known : Connection :=
  {| conn_id := "/connections/known-2";
     conn_name := "known";
     conn_target := None;
     conn_type := "ConnectionType.CUSTOM" |}.

Definition answering_remote : Remote :=
  {| agents_list := {| items := []; failure := None |};
     connections_list := {| items := [known_connection; second_known]; failure := None |};
     agents_get := fun _ => Ok (tool_bearing VDict);
     agents_create := fun _ _ =>
       Ok (VObj "AgentDetails" [("id", VStr "agent-4"); ("name", VStr "creado")]);
     openai_client := Ok tt;
     responses_create := fun _ _ _ => Ok sample_response;
     run_stream := fun _ _ _ => {| items := []; failure := None |} |}.

Definition sample_registration : AgentConfig * AgentFactory :=
  create_agent_config sample_factory "1a2b3c4d-0000" "2025-01-01T00:00:00" "Bromista"
    "Cuenta chistes" "Contar chistes" default_personality None None.

Definition registered_config : AgentConfig := fst sample_registration.

Definition registered_factory : AgentFactory := snd sample_registration.

Definition sample_shaped : shaped_agent :=
  {| shaped_id := VStr "agent-1";
     shaped_name := VStr "FavoritePaymentsAgent";
     shaped_latest := [];
     shaped_cls := "PromptAgentDefinition";
     shaped_entries := [("model", VStr "gpt-4o"); ("tools", VList [mcp_tool; VDict []])] |}.

Definition silent_item : value :=
  VObj "ResponseOutputMessage" [("type", VStr "message"); ("content", VNone)].

(** ** The endpoint that lists the tools *)

Record ToolResponse : Type := {
  tool_response_id : string;
  tool_response_name : string;
  tool_response_target : string;
  tool_response_tool_type : string
}.

(** What serving a request did: the events of the factory, the lines the
    endpoint printed, and its answer. *)
Record served (A : Type) : Type := {
  factory_trace : list event;
  console : list string;
  answer : http A
}.

Arguments factory_trace {A} s.
Arguments console {A} s.
Arguments answer {A} s.

(** [app.list_tools] *)
Definition list_tools (agent_factory : option AgentFactory) (remote : Remote)
  : served (list ToolResponse) :=
  match agent_factory with
  | None =>
      {| factory_trace := []; console := [];
         answer := HTTPException 500 "Agent factory not initialized" |}
  | Some factory =>
      match list_foundry_tools remote with
      | (t, Ok tools) =>
          {| factory_trace := t; console := [];
             answer :=
               Response
                 (map (fun tool =>
                         {| tool_response_id := tool_id tool;
                            tool_response_name := tool_name tool;
                            tool_response_target := tool_target tool;
                            tool_response_tool_type := tool_type tool |}) tools) |}
      | (t, Raised e) =>
          {| factory_trace := t;
             console := ["Error listing tools: " ++ exn_str e];
             answer := HTTPException 500 ("Error listing tools: " ++ exn_str e) |}
      end
  end.

(** The response made of a connection. *)
Definition tool_response_of (conn : Connection) : ToolResponse :=
  {| tool_response_id := conn_id conn;
     tool_response_name := conn_name conn;
     tool_response_target := conn_url conn;
     tool_response_tool_type := "mcp" |}.

(** The fragment the [except] branch of the chat yields for a failure. *)
Definition error_fragment (has_mcp_tools : bool) (e : exn) : value :=
  VStr (if contains "500" (exn_str e) && has_mcp_tools
        then known_limitation else raw_error (exn_str e)).

Definition unreadable_item : value :=
  VObj "ResponseOutputMessage" [("type", VStr "message"); ("content", VInt 5)].

Definition interrupted_response : value :=
  VObj "Response" [("output", VList (sample_output ++ [unreadable_item; silent_item]))].

Definition interrupted_remote : Remote :=
  {| agents_list := {| items := []; failure := None |};
     connections_list := {| items := []; failure := None |};
     agents_get := fun _ => Ok (tool_bearing VDict);
     agents_create := fun _ _ => Raised server_error;
     openai_client := Ok tt;
     responses_create := fun _ _ _ => Ok interrupted_response;
     run_stream := fun _ _ _ => {| items := []; failure := None |} |}.

Definition client_error : exn := RemoteError "openai client unavailable".

(** A service that knows the agent but whose client cannot hand out the
    sub-client of the completion call. *)
Definition clientless_remote : Remote :=
  {| agents_list := {| items := []; failure := None |};
     connections_list := {| items := []; failure := None |};
     agents_get := fun _ => Ok (tool_bearing VDict);
     agents_create := fun _ _ => Raised server_error;
     openai_client := Raised client_error;
     responses_create := fun _ _ _ => Ok sample_response;
     run_stream := fun _ _ _ => {| items := []; failure := None |} |}.

Definition other_connection : Connection :=
  {| conn_id := "/connections/other";
     conn_name := "other";
     conn_target := Some "https://other.example/mcp";
     conn_type := "ConnectionType.REMOTE_TOOL" |}.

Definition untargeted_connection : Connection :=
  {| conn_id := "/connections/untargeted";
     conn_name := "untargeted";
     conn_target := None;
     conn_type := "ConnectionType.CUSTOM" |}.

(** A service with three connections of different names. *)
Definition distinct_remote : Remote :=
  {| agents_list := {| items := []; failure := None |};
     connections_list :=
       {| items := [known_connection; other_connection; untargeted_connection];
          failure := None |};
     agents_get := fun _ => Raised server_error;
     agents_create := fun _ _ =>
       Ok (VObj "AgentDetails" [("id", VStr "agent-5"); ("name", VStr "creado")]);
     openai_client := Ok tt;
     responses_create := fun _ _ _ => Raised server_error;
     run_stream := fun _ _ _ => {| items := []; failure := None |} |}.

(** * Properties *)

(** ** NameSanitizer *)
Section SanitizerFacts.

Implicit Types (l : list ascii) (c : ascii).

Lemma is_hyphen_not_alnum c : is_hyphen c = true -> is_alnum c = false.
Proof.
  unfold is_hyphen. intros H. apply Ascii.eqb_eq in H. subst c. reflexivity.
Qed.

Lemma allowed_not_hyphen c :
  allowed c = true -> is_hyphen c = false -> is_alnum c = true.
Proof. unfold allowed. intros H1 H2. rewrite H2, orb_false_r in H1. exact H1. Qed.

Lemma replace_invalid_allowed l : forallb allowed (replace_invalid l) = true.
Proof.
  induction l as [|c l IH]; simpl; [reflexivity|].
  rewrite IH, andb_true_r.
  destruct (allowed c) eqn:E; [exact E | reflexivity].
Qed.

Lemma replace_invalid_id l : forallb allowed l = true -> replace_invalid l = l.
Proof.
  induction l as [|c l IH]; simpl; [reflexivity|].
  intros [Hc Hl]%andb_true_iff. rewrite Hc, (IH Hl). reflexivity.
Qed.

End SanitizerFacts.

Section SanitizerSteps.

Local Open Scope list_scope.

Implicit Types (l : list ascii) (c : ascii).

(** Stripping on the left removes a run of hyphens and nothing else. *)
Lemma lstrip_split l :
  exists p, l = p ++ lstrip l /\ forallb is_hyphen p = true.
Proof.
  induction l as [|c l [p [Hp Hh]]]; simpl.
  - exists []. split; reflexivity.
  - destruct (is_hyphen c) eqn:E.
    + exists (c :: p). simpl. rewrite E, Hh. split; [f_equal; exact Hp | reflexivity].
    + exists []. split; reflexivity.
Qed.

Lemma rstrip_split l :
  exists q, l = rstrip l ++ q /\ forallb is_hyphen q = true.
Proof.
  destruct (lstrip_split (rev l)) as [p [Hp Hh]].
  exists (rev p). split.
  - unfold rstrip. rewrite <- rev_app_distr, <- Hp, rev_involutive. reflexivity.
  - rewrite forallb_forall in *. intros x Hx. apply Hh, in_rev, Hx.
Qed.

Lemma lstrip_head l : starts_with_hyphen (lstrip l) = false.
Proof.
  induction l as [|c l IH]; simpl; [reflexivity|].
  destruct (is_hyphen c) eqn:E; [exact IH | simpl; exact E].
Qed.

Lemma lstrip_id l : starts_with_hyphen l = false -> lstrip l = l.
Proof. destruct l as [|c l]; simpl; [reflexivity|]. intros ->. reflexivity. Qed.

Lemma rstrip_last l : starts_with_hyphen (rev (rstrip l)) = false.
Proof. unfold rstrip. rewrite rev_involutive. apply lstrip_head. Qed.

Lemma rstrip_id l : starts_with_hyphen (rev l) = false -> rstrip l = l.
Proof. intros H. unfold rstrip. rewrite (lstrip_id _ H). apply rev_involutive. Qed.

Lemma starts_with_hyphen_app l k :
  l <> [] -> starts_with_hyphen (l ++ k) = starts_with_hyphen l.
Proof. destruct l; [congruence | reflexivity]. Qed.

Lemma no_double_hyphen_app l k :
  no_double_hyphen (l ++ k) = true ->
  no_double_hyphen l = true /\ no_double_hyphen k = true.
Proof.
  induction l as [|c l IH]; simpl; [intros H; split; [reflexivity | exact H]|].
  intros [Hc Hl]%andb_true_iff. destruct (IH Hl) as [Hl1 Hk]. split; [|exact Hk].
  rewrite Hl1, andb_true_r. destruct l as [|d l]; simpl in *.
  - rewrite andb_false_r. reflexivity.
  - exact Hc.
Qed.

Lemma collapse_hyphens_head l :
  starts_with_hyphen (collapse_hyphens l) = starts_with_hyphen l.
Proof.
  induction l as [|c l IH]; simpl; [reflexivity|].
  destruct (is_hyphen c) eqn:Ec; simpl.
  - destruct (starts_with_hyphen l) eqn:El; simpl; congruence.
  - exact Ec.
Qed.

Lemma collapse_hyphens_single l : no_double_hyphen (collapse_hyphens l) = true.
Proof.
  induction l as [|c l IH]; simpl; [reflexivity|].
  destruct (is_hyphen c && starts_with_hyphen l) eqn:E; [exact IH|].
  simpl. rewrite collapse_hyphens_head, E, IH. reflexivity.
Qed.

Lemma collapse_hyphens_id l : no_double_hyphen l = true -> collapse_hyphens l = l.
Proof.
  induction l as [|c l IH]; simpl; [reflexivity|].
  intros [Hc Hl]%andb_true_iff. apply negb_true_iff in Hc.
  rewrite Hc, (IH Hl). reflexivity.
Qed.

Lemma collapse_hyphens_allowed l :
  forallb allowed l = true -> forallb allowed (collapse_hyphens l) = true.
Proof.
  induction l as [|c l IH]; simpl; [reflexivity|].
  intros [Hc Hl]%andb_true_iff.
  destruct (is_hyphen c && starts_with_hyphen l); simpl; [|rewrite Hc]; apply IH, Hl.
Qed.

Lemma clean_app l k : clean (l ++ k) -> clean l /\ clean k.
Proof.
  unfold clean. rewrite forallb_app. intros [[Hl Hk]%andb_true_iff Hd].
  destruct (no_double_hyphen_app _ _ Hd). repeat split; assumption.
Qed.

Lemma clean_lstrip l : clean l -> clean (lstrip l).
Proof.
  intros H. destruct (lstrip_split l) as [p [Hp _]]. rewrite Hp in H.
  apply clean_app in H. apply H.
Qed.

Lemma clean_rstrip l : clean l -> clean (rstrip l).
Proof.
  intros H. destruct (rstrip_split l) as [q [Hq _]]. rewrite Hq in H.
  apply clean_app in H. apply H.
Qed.

Lemma clean_take n l : clean l -> clean (take n l).
Proof. intros H. rewrite <- (take_drop n l) in H. apply clean_app in H. apply H. Qed.

Lemma rstrip_head l :
  rstrip l <> [] -> starts_with_hyphen (rstrip l) = starts_with_hyphen l.
Proof.
  intros H. destruct (rstrip_split l) as [q [Hq _]].
  rewrite Hq at 2. symmetry. apply starts_with_hyphen_app, H.
Qed.

Lemma take_head n l :
  take n l <> [] -> starts_with_hyphen (take n l) = starts_with_hyphen l.
Proof.
  intros H. rewrite <- (take_drop n l) at 2. symmetry.
  apply starts_with_hyphen_app, H.
Qed.

Lemma head_alnum_clean l :
  l <> [] -> forallb allowed l = true -> starts_with_hyphen l = false ->
  head_alnum l = true.
Proof.
  destruct l as [|c l]; [congruence|]. simpl.
  intros _ [Hc _]%andb_true_iff Hh. apply allowed_not_hyphen; assumption.
Qed.

Lemma head_alnum_not_hyphen l : head_alnum l = true -> starts_with_hyphen l = false.
Proof.
  destruct l as [|c l]; simpl; [reflexivity|]. intros H.
  destruct (is_hyphen c) eqn:E; [|reflexivity].
  rewrite (is_hyphen_not_alnum _ E) in H. discriminate.
Qed.

Lemma forallb_rev (f : ascii -> bool) l : forallb f (rev l) = forallb f l.
Proof.
  induction l as [|c l IH]; simpl; [reflexivity|].
  rewrite forallb_app, IH. simpl. rewrite andb_true_r. apply andb_comm.
Qed.

(** The five steps before the fallback leave a string that is empty or
    satisfies the naming grammar. *)
Lemma sanitize_steps l :
  let r := rstrip (take max_length (strip (collapse_hyphens (replace_invalid l)))) in
  r = [] \/ valid_chars r = true.
Proof.
  intros r. destruct r as [|c r'] eqn:Er; [left; reflexivity | right].
  rewrite <- Er. assert (Hne : r <> []) by (rewrite Er; discriminate). clear Er c r'.
  set (x := collapse_hyphens (replace_invalid l)) in *.
  assert (Hx : clean x).
  { split; [apply collapse_hyphens_allowed, replace_invalid_allowed
           | apply collapse_hyphens_single]. }
  assert (Hr : clean r).
  { apply clean_rstrip, clean_take, clean_rstrip, clean_lstrip, Hx. }
  assert (Ht : take max_length (strip x) <> []).
  { intros E. apply Hne. unfold r. rewrite E. reflexivity. }
  assert (Hs : strip x <> []).
  { intros E. apply Ht. rewrite E. reflexivity. }
  assert (Hhead : starts_with_hyphen r = false).
  { unfold r. rewrite rstrip_head by exact Hne. rewrite take_head by exact Ht.
    unfold strip. rewrite rstrip_head by exact Hs. apply lstrip_head. }
  assert (Hlen : length r <= max_length).
  { destruct (rstrip_split (take max_length (strip x))) as [q [Hq _]].
    fold r in Hq. apply (f_equal (@length ascii)) in Hq.
    rewrite length_app, length_take in Hq. lia. }
  destruct Hr as [Ha Hd]. unfold valid_chars.
  rewrite Ha, Hd, (head_alnum_clean r Hne Ha Hhead). simpl.
  rewrite head_alnum_clean; simpl.
  - apply Nat.leb_le, Hlen.
  - intros E. apply Hne. rewrite <- (rev_involutive r), E. reflexivity.
  - rewrite forallb_rev. exact Ha.
  - apply rstrip_last.
Qed.

Lemma sanitize_chars_valid l : valid_chars (sanitize_chars l) = true.
Proof.
  unfold sanitize_chars. destruct (sanitize_steps l) as [E|H].
  - rewrite E. reflexivity.
  - destruct (rstrip _) eqn:E; [reflexivity | exact H].
Qed.

(** A string that satisfies the grammar passes through every step
    unchanged. *)
Lemma sanitize_chars_fixed l : valid_chars l = true -> sanitize_chars l = l.
Proof.
  unfold valid_chars.
  intros [[[[Ha Hd]%andb_true_iff Hh]%andb_true_iff Hl]%andb_true_iff Hn]%andb_true_iff.
  apply Nat.leb_le in Hn. unfold sanitize_chars, strip.
  rewrite (replace_invalid_id _ Ha), (collapse_hyphens_id _ Hd).
  rewrite (lstrip_id _ (head_alnum_not_hyphen _ Hh)).
  rewrite (rstrip_id _ (head_alnum_not_hyphen _ Hl)).
  rewrite take_ge by exact Hn.
  rewrite (rstrip_id _ (head_alnum_not_hyphen _ Hl)).
  destruct l; [discriminate | reflexivity].
Qed.

End SanitizerSteps.

Section SanitizerClaims.

Local Open Scope list_scope.

Lemma length_string_of_list_ascii (l : list ascii) :
  String.length (string_of_list_ascii l) = length l.
Proof. induction l as [|c l IH]; simpl; [reflexivity | rewrite IH; reflexivity]. Qed.

Lemma sanitize_valid_name (x : string) : valid_name (_sanitize_agent_name x) = true.
Proof.
  unfold valid_name, _sanitize_agent_name.
  rewrite list_ascii_of_string_of_list_ascii. apply sanitize_chars_valid.
Qed.

(** A valid name is a single alphanumeric character or has the shape the
    specification spells out. *)
Lemma valid_name_shape (s : string) :
  valid_name s = true ->
  matches_spec_grammar s = true
  \/ exists c, is_alnum c = true /\ s = String c EmptyString.
Proof.
  unfold valid_name, valid_chars, matches_spec_grammar.
  assert (Hs : s = string_of_list_ascii (list_ascii_of_string s))
    by (symmetry; apply string_of_list_ascii_of_string).
  destruct (list_ascii_of_string s) as [|c tl]; [discriminate|].
  intros [[[[Ha Hd]%andb_true_iff Hh]%andb_true_iff Hl]%andb_true_iff _]%andb_true_iff.
  destruct tl as [|c' tl' _] using rev_ind.
  - right. exists c. split; [exact Hh | exact Hs].
  - left. rewrite Hd, andb_true_r. simpl in Hh. rewrite Hh. simpl.
    rewrite rev_app_distr. simpl.
    change (c :: tl' ++ [c']) with ((c :: tl') ++ [c']) in Hl.
    rewrite rev_app_distr in Hl. simpl in Hl. rewrite Hl. simpl.
    simpl in Ha. apply andb_true_iff in Ha as [_ Ha].
    rewrite forallb_app in Ha. apply andb_true_iff in Ha as [Ha _].
    rewrite forallb_rev. exact Ha.
Qed.

(** C5 (as amended).  For every input string, empty or not, the sanitized
    name either matches the grammar [[A-Za-z0-9][A-Za-z0-9-]*[A-Za-z0-9]]
    without consecutive hyphens or is a single alphanumeric character, and
    it has at most 63 characters.  The fallback identifier matches the
    grammar itself. *)
Theorem sanitize_matches_grammar_or_single (x : string) :
  (matches_spec_grammar (_sanitize_agent_name x) = true
   \/ exists c, is_alnum c = true /\ _sanitize_agent_name x = String c EmptyString)
  /\ String.length (_sanitize_agent_name x) <= 63.
Proof.
  pose proof (sanitize_valid_name x) as Hv. split.
  - apply valid_name_shape, Hv.
  - unfold valid_name, valid_chars in Hv.
    apply andb_true_iff in Hv as [_ Hn]. apply Nat.leb_le in Hn.
    unfold _sanitize_agent_name in *.
    rewrite list_ascii_of_string_of_list_ascii in Hn.
    rewrite length_string_of_list_ascii. exact Hn.
Qed.

(** C5 as stated fails: the one-character name [a] is returned unchanged,
    it is not the fallback and the grammar of the claim needs two
    characters. *)
Lemma sanitize_single_character_outside_grammar :
  ~ (forall x : string, x <> EmptyString ->
       (matches_spec_grammar (_sanitize_agent_name x) = true
        \/ _sanitize_agent_name x = "agent"%string)
       /\ String.length (_sanitize_agent_name x) <= 63).
Proof.
  intros H. destruct (H "a"%string) as [[H1|H1] _]; [discriminate | |];
    vm_compute in H1; discriminate.
Qed.

(** C6.  The name sanitizer is idempotent: sanitizing a sanitized name
    returns it unchanged, for every input string. *)
Theorem sanitize_idempotent (x : string) :
  _sanitize_agent_name (_sanitize_agent_name x) = _sanitize_agent_name x.
Proof.
  unfold _sanitize_agent_name.
  rewrite list_ascii_of_string_of_list_ascii.
  rewrite sanitize_chars_fixed; [reflexivity | apply sanitize_chars_valid].
Qed.

Example sanitize_faq_bot : _sanitize_agent_name "FAQ Bot!!" = "FAQ-Bot"%string.
Proof. reflexivity. Qed.

Example sanitize_empty : _sanitize_agent_name EmptyString = "agent"%string.
Proof. reflexivity. Qed.

Example sanitize_only_invalid : _sanitize_agent_name "!!!" = "agent"%string.
Proof. reflexivity. Qed.

Example sanitize_accents : _sanitize_agent_name "Niño  añejo-" = "Ni-o-a-ejo"%string.
Proof. reflexivity. Qed.

End SanitizerClaims.

(** ** InstructionComposer *)
Section ComposerClaims.

Lemma string_app_assoc (a b c : string) : (a ++ b) ++ c = a ++ b ++ c.
Proof.
  induction a as [|x a IH]; [reflexivity|].
  change (String x ((a ++ b) ++ c) = String x (a ++ b ++ c)). f_equal. exact IH.
Qed.

Lemma default_capabilities_rendered :
  capabilities_text (Some default_capabilities) = default_capabilities_text.
Proof. reflexivity. Qed.

Lemma default_rules_rendered :
  rules_text (Some default_rules) = default_rules_text.
Proof. reflexivity. Qed.

Ltac next_section before :=
  exists before; eexists; split; [rewrite ?string_app_assoc; reflexivity|].

(** C7.  Whatever the purpose, the personality, the capabilities and the
    rules, the document holds the sections purpose, personality,
    capabilities and rules in this order, each a header line followed by
    its text, then the closing response-format header; the purpose is
    echoed verbatim; without capabilities (absent or empty) the document is
    the one of the two default phrases, without rules the one of the four
    default rules.  The function is total.

    Spelled out: the headers are the five lines written below; the
    capabilities section lists each capability after a hyphen, or the two
    default phrases; the rules section numbers the rules from 1, or lists
    the four default rules; and the whole document is the introduction
    line, the four sections, each followed by an empty line, and the three
    fixed lines of the format section, with nothing else. *)
Theorem instructions_layout (purpose personality : string)
    (capabilities rules : option (list string)) :
  let lf := String "010"%char EmptyString in
  let capabilities_block :=
    match capabilities with
    | None | Some [] =>
        "- Responder preguntas de manera clara y concisa" ++ lf
        ++ "- Ayudar al usuario con sus consultas"
    | Some caps => String.concat lf (map (fun cap => "- " ++ cap) caps)
    end in
  let rules_block :=
    match rules with
    | None | Some [] =>
        "1. Siempre mantén un tono profesional y respetuoso" ++ lf
        ++ "2. Si no sabes algo, admítelo honestamente" ++ lf
        ++ "3. Sé conciso pero completo en tus respuestas" ++ lf
        ++ "4. Usa emojis cuando sea apropiado para hacer la conversación más amena"
    | Some rs =>
        String.concat lf
          (imap (fun i rule =>
                   NilZero.string_of_uint (Nat.to_uint (i + 1)) ++ ". " ++ rule) rs)
    end in
  occur_in_order
    [ header_purpose ++ nl ++ purpose ++ nl;
      header_personality ++ nl ++ personality ++ nl;
      header_capabilities ++ nl ++ capabilities_text capabilities ++ nl;
      header_rules ++ nl ++ rules_text rules ++ nl;
      header_format ]
    (generate_agent_instructions purpose personality capabilities rules)
  /\ length default_capabilities = 2
  /\ generate_agent_instructions purpose personality None rules
     = generate_agent_instructions purpose personality (Some default_capabilities) rules
  /\ generate_agent_instructions purpose personality (Some []) rules
     = generate_agent_instructions purpose personality (Some default_capabilities) rules
  /\ length default_rules = 4
  /\ generate_agent_instructions purpose personality capabilities None
     = generate_agent_instructions purpose personality capabilities (Some default_rules)
  /\ generate_agent_instructions purpose personality capabilities (Some [])
     = generate_agent_instructions purpose personality capabilities (Some default_rules)
  /\ occur_in_order
       [ "PROPÓSITO PRINCIPAL:" ++ lf ++ purpose ++ lf;
         "PERSONALIDAD:" ++ lf ++ personality ++ lf;
         "CAPACIDADES:" ++ lf ++ capabilities_block ++ lf;
         "REGLAS DE COMPORTAMIENTO:" ++ lf ++ rules_block ++ lf;
         "FORMATO DE RESPUESTA:" ]
       (generate_agent_instructions purpose personality capabilities rules)
  /\ generate_agent_instructions purpose personality capabilities rules
     = "Eres un asistente especializado con el siguiente propósito:" ++ lf
       ++ lf
       ++ "PROPÓSITO PRINCIPAL:" ++ lf
       ++ purpose ++ lf
       ++ lf
       ++ "PERSONALIDAD:" ++ lf
       ++ personality ++ lf
       ++ lf
       ++ "CAPACIDADES:" ++ lf
       ++ capabilities_block ++ lf
       ++ lf
       ++ "REGLAS DE COMPORTAMIENTO:" ++ lf
       ++ rules_block ++ lf
       ++ lf
       ++ "FORMATO DE RESPUESTA:" ++ lf
       ++ "- Responde de manera clara y estructurada" ++ lf
       ++ "- Usa viñetas o numeración cuando sea apropiado" ++ lf
       ++ "- Incluye ejemplos cuando ayuden a clarificar" ++ lf.
Proof.
  intros lf capabilities_block rules_block.
  assert (Hdoc : generate_agent_instructions purpose personality capabilities rules
                 = "Eres un asistente especializado con el siguiente propósito:" ++ lf
                   ++ lf ++ "PROPÓSITO PRINCIPAL:" ++ lf ++ purpose ++ lf
                   ++ lf ++ "PERSONALIDAD:" ++ lf ++ personality ++ lf
                   ++ lf ++ "CAPACIDADES:" ++ lf ++ capabilities_block ++ lf
                   ++ lf ++ "REGLAS DE COMPORTAMIENTO:" ++ lf ++ rules_block ++ lf
                   ++ lf ++ "FORMATO DE RESPUESTA:" ++ lf
                   ++ "- Responde de manera clara y estructurada" ++ lf
                   ++ "- Usa viñetas o numeración cuando sea apropiado" ++ lf
                   ++ "- Incluye ejemplos cuando ayuden a clarificar" ++ lf).
  { subst capabilities_block rules_block.
    destruct capabilities as [[|cap caps]|], rules as [[|rule rs]|]; reflexivity. }
  split.
  { unfold generate_agent_instructions. simpl occur_in_order.
    next_section ("Eres un asistente especializado con el siguiente propósito:" ++ nl ++ nl).
    next_section nl.
    next_section nl.
    next_section nl.
    next_section nl.
    exact I. }
  do 6 (split; [unfold generate_agent_instructions;
                rewrite ?default_capabilities_rendered, ?default_rules_rendered;
                reflexivity|]).
  split; [|exact Hdoc].
  rewrite Hdoc. simpl occur_in_order.
  next_section ("Eres un asistente especializado con el siguiente propósito:" ++ lf ++ lf).
  next_section lf.
  next_section lf.
  next_section lf.
  next_section lf.
  exact I.
Qed.

Example instructions_numbered_rules :
  rules_text (Some ["uno"; "dos"; "tres"])
  = "1. uno" ++ nl ++ "2. dos" ++ nl ++ "3. tres".
Proof. reflexivity. Qed.

Example instructions_bullets :
  capabilities_text (Some ["leer"; "escribir"]) = "- leer" ++ nl ++ "- escribir".
Proof. reflexivity. Qed.

End ComposerClaims.

(** ** The trace monad *)
Section MonadFacts.

Local Open Scope list_scope.

Context {A B : Type}.

Lemma bind_run (t : list event) (a : A) (k : A -> M B) :
  bind (t, Ok a) k = (t ++ fst (k a), snd (k a)).
Proof. simpl. destruct (k a). reflexivity. Qed.

Lemma bind_lift_ok (a : A) (k : A -> M B) : bind (lift (Ok a)) k = k a.
Proof. unfold lift. rewrite bind_run. destruct (k a). reflexivity. Qed.

Lemma bind_emit (e : event) (k : unit -> M B) :
  bind (emit e) k = (e :: fst (k tt), snd (k tt)).
Proof. unfold emit, bind. destruct (k tt). reflexivity. Qed.

Lemma fst_bind (m : M A) (k : A -> M B) :
  fst (bind m k)
  = fst m ++ match snd m with Ok a => fst (k a) | Raised _ => [] end.
Proof.
  destruct m as [t [a|e]]; simpl; [destruct (k a); reflexivity|].
  rewrite app_nil_r. reflexivity.
Qed.

Lemma snd_bind (m : M A) (k : A -> M B) :
  snd (bind m k) = match snd m with Ok a => snd (k a) | Raised e => Raised e end.
Proof. destruct m as [t [a|e]]; simpl; [destruct (k a)|]; reflexivity. Qed.

Lemma snd_bind_ok (m : M A) (k : A -> M B) (b : B) :
  snd (bind m k) = Ok b -> exists a, snd m = Ok a /\ snd (k a) = Ok b.
Proof.
  rewrite snd_bind. destruct (snd m) as [a|e]; [|discriminate].
  intros H. exists a. split; [reflexivity | exact H].
Qed.

Lemma snd_with_session (m : M A) : snd (with_session m) = snd m.
Proof. destruct m. reflexivity. Qed.

Lemma fst_with_session (m : M A) :
  fst (with_session m) = Call Connect :: fst m ++ [Call Release].
Proof. destruct m. reflexivity. Qed.

End MonadFacts.

Section FoldFacts.

Local Open Scope list_scope.

Context {A S : Type}.

(** A property of the accumulator that every step keeps holds of the
    result of the loop. *)
Lemma async_fold_invariant (P : S -> Prop) (s : stream A) (step : S -> A -> M S)
    (init acc : S) :
  P init ->
  (forall acc x acc', P acc -> snd (step acc x) = Ok acc' -> P acc') ->
  snd (async_fold s step init) = Ok acc -> P acc.
Proof.
  intros Hinit Hstep. unfold async_fold. intros H.
  apply snd_bind_ok in H as [acc0 [Hfold H]].
  assert (Hacc : acc = acc0).
  { destruct (failure s); simpl in H; congruence. }
  subst acc0. clear H. revert Hfold.
  assert (Hgen : forall (l : list A) (m : M S),
             (forall a, snd m = Ok a -> P a) ->
             snd (foldl (fun m x => let* acc := m in step acc x) m l) = Ok acc ->
             P acc).
  { induction l as [|x l IH]; intros m Hm; simpl.
    - apply Hm.
    - intros Hl. apply (IH (let* acc := m in step acc x)); [|exact Hl].
      intros a Ha. apply snd_bind_ok in Ha as [a0 [Ha0 Ha]].
      eapply Hstep; [apply Hm, Ha0 | exact Ha]. }
  apply Hgen. intros a Ha. simpl in Ha. congruence.
Qed.

(** A loop whose steps neither fail nor perform events. *)
Lemma async_fold_pure (s : stream A) (f : S -> A -> S) (init : S) :
  async_fold s (fun acc x => ret (f acc x)) init
  = ([], match failure s with
         | Some e => Raised e
         | None => Ok (foldl f init (items s))
         end).
Proof.
  unfold async_fold.
  assert (H : forall acc,
             foldl (fun m x => let* acc := m in ret (f acc x)) (ret acc) (items s)
             = ret (foldl f acc (items s))).
  { generalize (items s). induction l as [|x l IH]; intros acc; simpl; [reflexivity | apply IH]. }
  rewrite H. simpl. destruct (failure s); reflexivity.
Qed.

End FoldFacts.

(** ** The locally authored chat path *)
Section LocalChat.

(** C8.  For an agent id without configuration in the registry the chat
    produces exactly one fragment, the error text, and ends there: the
    generator is exhausted without an exception, and the trace holds no
    call to the remote service, not even the opening of a session. *)
Theorem chat_with_unknown_agent (self : AgentFactory) (remote : Remote)
    (agent_id message : string) (thread_id : option string) :
  get_agent_config self agent_id = None ->
  chat_with_agent self remote agent_id message thread_id
  = ([Yield (VStr (not_found agent_id))], Ok tt)
  /\ fragments (fst (chat_with_agent self remote agent_id message thread_id))
     = [VStr (not_found agent_id)]
  /\ calls (fst (chat_with_agent self remote agent_id message thread_id)) = [].
Proof.
  intros H. unfold chat_with_agent. rewrite H. repeat split.
Qed.

End LocalChat.

(** ** The remote catalog: listing *)
Section ListingClaims.

Local Open Scope list_scope.

Lemma process_tools_agree (tools : value) (has : bool) (types : list value) :
  snd (process_tools tools) = Ok (has, types) ->
  (has = true /\ types <> []) \/ (has = false /\ types = []).
Proof.
  unfold process_tools.
  destruct tools as [|b|n|s|l|kvs|cls attrs]; simpl.
  - intros [= <- <-]. right. split; reflexivity.
  - destruct b; simpl; [discriminate|]. intros [= <- <-]. right. split; reflexivity.
  - destruct (n =? 0)%Z; simpl; [|discriminate]. intros [= <- <-]. right. split; reflexivity.
  - destruct s as [|c s]; simpl; intros [= <- <-]; [right | left]; split; try reflexivity.
    discriminate.
  - destruct l as [|x l]; simpl; intros [= <- <-]; [right | left]; split; try reflexivity.
    discriminate.
  - destruct kvs as [|x l]; simpl; intros [= <- <-]; [right | left]; split; try reflexivity.
    discriminate.
  - discriminate.
Qed.

Lemma consistent_of_agree (id name description model : value) (created_at : string)
    (has : bool) (types : list value) :
  (has = true /\ types <> []) \/ (has = false /\ types = []) ->
  consistent {| agent_id := id; agent_name := name; agent_description := description;
                agent_model := model; agent_created_at := created_at; has_tools := has;
                tool_types := match types with [] => None | _ => Some types end |}.
Proof.
  intros [[-> Hne]|[-> ->]]; unfold consistent; simpl.
  - destruct types as [|t ts]; [congruence|]. split; [|discriminate].
    split; [intros _; exists t, ts; reflexivity | reflexivity].
  - split; [|reflexivity]. split; [discriminate | intros [t [ts H]]; discriminate].
Qed.

Lemma summarize_consistent (py_str : value -> string) (agent : value) (a : FoundryAgent) :
  snd (summarize py_str agent) = Ok a -> consistent a.
Proof.
  unfold summarize. intros H.
  apply snd_bind_ok in H as [[[[[model description] created_at] has] types] [Hfields H]].
  apply snd_bind_ok in H as [id [_ H]]. apply snd_bind_ok in H as [name [_ H]].
  simpl in H. injection H as <-. apply consistent_of_agree.
  destruct (hasattr agent "versions" && truthy (getattr agent "versions" VNone));
    [|injection Hfields as <- <- <- <- <-; right; split; reflexivity].
  destruct (truthy _); [|injection Hfields as <- <- <- <- <-; right; split; reflexivity].
  apply snd_bind_ok in Hfields as [[[model' has'] types'] [Hdef Hfields]].
  injection Hfields as <- <- <- <- <-.
  destruct (truthy _); [|injection Hdef as <- <- <-; right; split; reflexivity].
  destruct (definition_fields _) as [model0 tools].
  apply snd_bind_ok in Hdef as [[has0 types0] [Htools Hdef]].
  injection Hdef as <- <- <-. apply process_tools_agree with (tools := tools), Htools.
Qed.

Lemma list_foundry_agents_consistent (py_str : value -> string) (remote : Remote)
    (found : list FoundryAgent) :
  snd (list_foundry_agents py_str remote) = Ok found -> Forall consistent found.
Proof.
  unfold list_foundry_agents. rewrite snd_with_session. intros H.
  apply snd_bind_ok in H as [[] [_ H]]. revert H.
  apply async_fold_invariant; [constructor|].
  intros acc agent acc' Hacc H.
  apply snd_bind_ok in H as [a [Ha H]]. injection H as <-.
  apply Forall_app. split; [exact Hacc|]. constructor; [|constructor].
  apply (summarize_consistent py_str agent), Ha.
Qed.

(** What a successful creation returns: the answer of the service gave
    the id and the name, everything else is fixed. *)
Lemma create_foundry_agent_returns (remote : Remote) (name instructions model : string)
    (tool_names : option (list string)) (a : FoundryAgent) :
  snd (create_foundry_agent remote name instructions model tool_names) = Ok a ->
  exists definition agent id response_name,
    agents_create remote (_sanitize_agent_name name) definition = Ok agent
    /\ def_model definition = model
    /\ def_instructions definition = instructions
    /\ lookup_attr agent "id" = Some id
    /\ lookup_attr agent "name" = Some response_name
    /\ a = {| agent_id := id;
              agent_name := or_else response_name (VStr (_sanitize_agent_name name));
              agent_description := VStr "";
              agent_model := VStr model;
              agent_created_at := "";
              has_tools := false;
              tool_types := None |}.
Proof.
  unfold create_foundry_agent. intros H.
  apply snd_bind_ok in H as [[] [_ H]]. apply snd_bind_ok in H as [[] [_ H]].
  apply snd_bind_ok in H as [[] [_ H]]. rewrite snd_with_session in H.
  apply snd_bind_ok in H as [tools [_ H]]. apply snd_bind_ok in H as [[] [_ H]].
  apply snd_bind_ok in H as [agent [Hagent H]]. simpl in Hagent.
  apply snd_bind_ok in H as [id [Hid H]]. apply snd_bind_ok in H as [rn [Hrn H]].
  simpl in H. injection H as <-.
  unfold attr in Hid, Hrn. simpl in Hid, Hrn.
  destruct (lookup_attr agent "id") as [id'|] eqn:Eid; [|discriminate].
  destruct (lookup_attr agent "name") as [rn'|] eqn:Ern; [|discriminate].
  injection Hid as ->. injection Hrn as ->.
  eexists _, agent, id, rn. split; [exact Hagent|].
  repeat split; assumption || reflexivity.
Qed.

(** C1.  In every summary that [list_foundry_agents] or
    [create_foundry_agent] returns, [has_tools] is true exactly when
    [tool_types] is a non-empty list, and [tool_types] is [None] whenever
    [has_tools] is false, whatever the values the service handed over. *)
Theorem summaries_consistent (py_str : value -> string) (remote : Remote) :
  (forall found,
     snd (list_foundry_agents py_str remote) = Ok found -> Forall consistent found)
  /\ (forall name instructions model tool_names a,
        snd (create_foundry_agent remote name instructions model tool_names) = Ok a ->
        consistent a).
Proof.
  split; [apply list_foundry_agents_consistent|].
  intros name instructions model tool_names a H.
  apply create_foundry_agent_returns in H as (d & agent & id & rn & _ & _ & _ & _ & _ & ->).
  unfold consistent. simpl. split; [|reflexivity].
  split; [discriminate | intros (t & ts & H); discriminate].
Qed.

(** Reading a tool list that arrived falsy gives what the empty list
    gives. *)
Lemma process_tools_or_else (tools : value) :
  process_tools (or_else tools (VList [])) = process_tools tools.
Proof.
  unfold or_else, process_tools. destruct (truthy tools) eqn:E; [rewrite E|]; reflexivity.
Qed.

Lemma summarize_shape (py_str : value -> string) (a : shaped_agent) :
  summarize py_str (as_mapping a) = summarize py_str (as_object a).
Proof.
  destruct a as [id name latest cls entries].
  unfold as_mapping, as_object, remote_agent, summarize. simpl.
  destruct entries as [|entry entries]; [reflexivity|].
  simpl. rewrite process_tools_or_else. reflexivity.
Qed.

(** C3.  Listing treats the two shapes of a definition alike: when each
    agent of an enumeration carries its definition once as a keyed mapping
    and once as an object with the same entries, the two listings return
    the same summaries (or fail alike) and perform the same events. *)
Theorem listing_shape_independent (py_str : value -> string) (remote : Remote)
    (enumerated : list shaped_agent) (ending : option exn) :
  list_foundry_agents py_str
    (with_agents remote {| items := map as_mapping enumerated; failure := ending |})
  = list_foundry_agents py_str
      (with_agents remote {| items := map as_object enumerated; failure := ending |}).
Proof.
  unfold list_foundry_agents, async_fold. simpl. do 3 f_equal.
  generalize (@ret (list FoundryAgent) []).
  induction enumerated as [|a l IH]; intros m; simpl; [reflexivity|].
  rewrite summarize_shape. apply IH.
Qed.

End ListingClaims.

(** ** The remote catalog: creation *)
Section CreationClaims.

Local Open Scope list_scope.

Lemma assoc_dict_set {A : Type} (k n : string) (v : A) (d : list (string * A)) :
  assoc n (dict_set k v d) = if String.eqb k n then Some v else assoc n d.
Proof.
  induction d as [|[k' x] d IH]; simpl; [reflexivity|].
  destruct (String.eqb k' k) eqn:Ek; simpl.
  - apply String.eqb_eq in Ek. subst k'. destruct (String.eqb k n); reflexivity.
  - destruct (String.eqb k' n) eqn:En; [|exact IH].
    destruct (String.eqb k n) eqn:Ekn; [|reflexivity].
    apply String.eqb_eq in En, Ekn. subst. rewrite String.eqb_refl in Ek. discriminate.
Qed.

(** The map built from the inventory sends a name to the last connection
    that bears it. *)
Lemma assoc_connections_map (n : string) (inventory : list Connection)
    (m : list (string * (string * string))) :
  assoc n (foldl (fun m conn => dict_set (conn_name conn) (conn_info conn) m) m inventory)
  = match last_named n inventory with
    | Some conn => Some (conn_info conn)
    | None => assoc n m
    end.
Proof.
  revert m. induction inventory as [|conn rest IH]; intros m; simpl; [reflexivity|].
  rewrite IH, assoc_dict_set. destruct (last_named n rest); [reflexivity|].
  destruct (String.eqb (conn_name conn) n); reflexivity.
Qed.

Lemma resolve_tools_run (connections_map : list (string * (string * string)))
    (names : list string) (tools : list MCPTool) :
  resolve_tools connections_map names tools
  = (map (fun n => Print (LineWarning n))
       (List.filter (fun n => negb (bool_decide (is_Some (assoc n connections_map)))) names),
     Ok (tools ++ omap (fun n => descriptor n <$> assoc n connections_map) names)).
Proof.
  revert tools. induction names as [|n names IH]; intros tools; simpl.
  - rewrite app_nil_r. reflexivity.
  - destruct (assoc n connections_map) as [info|] eqn:E; simpl.
    + rewrite IH, <- app_assoc. reflexivity.
    + rewrite IH. reflexivity.
Qed.

Lemma warnings_of_prints (names : list string) :
  warnings (map (fun n => Print (LineWarning n)) names) = names.
Proof. induction names as [|n l IH]; simpl; [reflexivity | f_equal; exact IH]. Qed.

Lemma submitted_of_prints (names : list string) :
  submitted (map (fun n => Print (LineWarning n)) names) = [].
Proof. induction names as [|n l IH]; simpl; [reflexivity | exact IH]. Qed.

Lemma resolved_of_map (connections_map : list (string * (string * string)))
    (inventory : list Connection) (names : list string) :
  (forall x, assoc x connections_map = conn_info <$> last_named x inventory) ->
  omap (fun n => descriptor n <$> assoc n connections_map) names
  = resolved_descriptors inventory names.
Proof.
  intros Hc. unfold resolved_descriptors.
  induction names as [|n names IH]; [reflexivity|].
  cbn [omap list_omap]. rewrite IH, Hc. destruct (last_named n inventory); reflexivity.
Qed.

(** Resolution succeeds whenever the inventory can be enumerated (or need
    not be): it returns the descriptors of the names that resolve and
    warns about the others. *)
Lemma build_tools_run (remote : Remote) (tool_names : option (list string)) :
  failure (connections_list remote) = None \/ given tool_names = [] ->
  exists t,
    build_tools remote tool_names
    = (t, Ok (resolved_descriptors (items (connections_list remote)) (given tool_names)))
    /\ submitted t = []
    /\ warnings t
       = List.filter (fun n => negb (has_connection (items (connections_list remote)) n))
           (given tool_names).
Proof.
  intros H. unfold build_tools.
  destruct (given tool_names) as [|n names] eqn:En.
  { exists []. repeat split. }
  destruct H as [H|H]; [|discriminate].
  cbv beta iota. rewrite !bind_emit, async_fold_pure, H, bind_run. cbv beta.
  rewrite bind_emit, resolve_tools_run. cbn [fst snd app].
  set (cmap := foldl _ [] _).
  assert (Hc : forall x, assoc x cmap
                 = conn_info <$> last_named x (items (connections_list remote))).
  { intros x. unfold cmap. rewrite assoc_connections_map.
    destruct (last_named x _); reflexivity. }
  eexists. split; [rewrite (resolved_of_map _ _ _ Hc); reflexivity|]. split.
  - cbn. apply submitted_of_prints.
  - cbn [warnings omap list_omap]. rewrite warnings_of_prints.
    apply List.filter_ext. intros x. unfold has_connection. rewrite Hc.
    destruct (last_named x _); reflexivity.
Qed.

Lemma build_tools_ok_inv (remote : Remote) (tool_names : option (list string))
    (tools : list MCPTool) :
  snd (build_tools remote tool_names) = Ok tools ->
  failure (connections_list remote) = None \/ given tool_names = [].
Proof.
  unfold build_tools. destruct (given tool_names) as [|n names]; [right; reflexivity|].
  destruct (failure (connections_list remote)) as [e|] eqn:E; [|left; reflexivity].
  cbv beta iota. rewrite !bind_emit, async_fold_pure, E. discriminate.
Qed.

(** Once the tools are resolved the definition is submitted, and what
    follows performs no further event. *)
Lemma create_foundry_agent_trace (remote : Remote) (name instructions model : string)
    (tool_names : option (list string)) :
  failure (connections_list remote) = None \/ given tool_names = [] ->
  let inventory := items (connections_list remote) in
  let trace := fst (create_foundry_agent remote name instructions model tool_names) in
  submitted trace
  = [(_sanitize_agent_name name,
      definition_of model instructions (resolved_descriptors inventory (given tool_names)))]
  /\ warnings trace
     = List.filter (fun n => negb (has_connection inventory n)) (given tool_names).
Proof.
  intros H. destruct (build_tools_run remote tool_names H) as (t & Hb & Hs & Hw).
  cbv zeta. unfold create_foundry_agent. rewrite !bind_emit. cbn [fst snd].
  rewrite fst_with_session, Hb, bind_run. cbv beta. rewrite bind_emit. cbn [fst snd].
  set (resolved := resolved_descriptors _ _) in *.
  fold (definition_of model instructions resolved).
  set (rest := bind (lift _) _).
  assert (Hrest : fst rest = []).
  { unfold rest, lift. destruct (agents_create _ _ _) as [agent|e]; [|reflexivity].
    rewrite bind_run. cbv beta. unfold attr.
    destruct (lookup_attr agent "id"); [|reflexivity]. rewrite bind_run. cbv beta.
    destruct (lookup_attr agent "name"); reflexivity. }
  rewrite Hrest. unfold submitted, warnings in *.
  cbn [omap list_omap]. rewrite !omap_app, Hs, Hw. cbn [omap list_omap app].
  rewrite ?app_nil_r. split; reflexivity.
Qed.

Lemma resolved_labels (inventory : list Connection) (names : list string) :
  map server_label (resolved_descriptors inventory names)
  = List.filter (has_connection inventory) names.
Proof.
  unfold resolved_descriptors, has_connection.
  induction names as [|n names IH]; [reflexivity|].
  cbn [omap list_omap List.filter]. destruct (last_named n inventory); cbn; rewrite IH; reflexivity.
Qed.

Lemma last_named_name (n : string) (inventory : list Connection) (conn : Connection) :
  last_named n inventory = Some conn -> conn_name conn = n /\ In conn inventory.
Proof.
  induction inventory as [|c rest IH]; simpl; [discriminate|].
  destruct (last_named n rest) as [found|].
  - intros [= <-]. destruct (IH eq_refl) as [Hn Hin]. split; [exact Hn | right; exact Hin].
  - destruct (String.eqb (conn_name c) n) eqn:E; [|discriminate].
    intros [= <-]. apply String.eqb_eq in E. split; [exact E | left; reflexivity].
Qed.

Lemma resolved_attach (inventory : list Connection) (names : list string) :
  Forall (attaches inventory) (resolved_descriptors inventory names).
Proof.
  unfold resolved_descriptors.
  induction names as [|n names IH]; [constructor|].
  cbn [omap list_omap]. destruct (last_named n inventory) as [conn|] eqn:E; cbn; [|exact IH].
  constructor; [|exact IH]. exists conn. cbn. unfold conn_url.
  destruct (last_named_name _ _ _ E) as [Hn _].
  split; [exact E|]. split; [exact Hn|].
  split; [destruct (conn_target conn); reflexivity|].
  repeat split.
Qed.

(** C4.  For every list of requested tool names and every inventory that
    can be enumerated, creation warns once about each name without a
    connection, in request order, and goes on to submit one definition; its
    tools are one descriptor for each name that resolves, in request order,
    and each descriptor carries the name as server label, the url and the id
    of the connection resolved to (the last of that name), no allowed-tools
    restriction and the approval policy never. *)
Theorem resolution_skips_unknown_names (remote : Remote)
    (name instructions model : string) (tool_names : option (list string)) :
  failure (connections_list remote) = None ->
  let inventory := items (connections_list remote) in
  let names := given tool_names in
  let trace := fst (create_foundry_agent remote name instructions model tool_names) in
  exists resolved,
    submitted trace
    = [(_sanitize_agent_name name,
        {| def_model := model; def_instructions := instructions;
           def_tools := match resolved with [] => None | _ => Some resolved end |})]
    /\ map server_label resolved = List.filter (has_connection inventory) names
    /\ warnings trace = List.filter (fun n => negb (has_connection inventory n)) names
    /\ Forall (attaches inventory) resolved.
Proof.
  intros H inventory names trace.
  destruct (create_foundry_agent_trace remote name instructions model tool_names
              (or_introl H)) as [Hs Hw].
  exists (resolved_descriptors inventory names). split; [exact Hs|].
  split; [apply resolved_labels|]. split; [exact Hw | apply resolved_attach].
Qed.

(** C9.  When the requested names are absent or none of them resolves,
    the definition submitted has no tool list at all; when at least one
    resolves, it has exactly the resolved descriptors; it never has an empty
    list. *)
Theorem submitted_tools_absent_or_resolved (remote : Remote)
    (name instructions model : string) (tool_names : option (list string)) :
  failure (connections_list remote) = None \/ given tool_names = [] ->
  let resolved :=
    resolved_descriptors (items (connections_list remote)) (given tool_names) in
  exists definition,
    submitted (fst (create_foundry_agent remote name instructions model tool_names))
    = [(_sanitize_agent_name name, definition)]
    /\ (tool_names = None \/ resolved = [] -> def_tools definition = None)
    /\ (resolved <> [] -> def_tools definition = Some resolved)
    /\ def_tools definition <> Some [].
Proof.
  intros H resolved.
  destruct (create_foundry_agent_trace remote name instructions model tool_names H)
    as [Hs _].
  exists (definition_of model instructions resolved). split; [exact Hs|].
  unfold definition_of. cbn [def_tools]. split; [|split].
  - intros [Hn | Hr]; [|rewrite Hr; reflexivity].
    unfold resolved. rewrite Hn. reflexivity.
  - destruct resolved; [congruence | reflexivity].
  - destruct resolved; discriminate.
Qed.

(** C10.  A successful creation returns a summary with [has_tools] false
    and [tool_types] absent whatever tools the submitted definition
    carries, and with the name the service answered, or the sanitized
    request name when that answer is empty or [None]. *)
Theorem created_summary_defaults (remote : Remote) (name instructions model : string)
    (tool_names : option (list string)) (a : FoundryAgent) :
  snd (create_foundry_agent remote name instructions model tool_names) = Ok a ->
  has_tools a = false
  /\ tool_types a = None
  /\ exists definition agent response_name,
       submitted (fst (create_foundry_agent remote name instructions model tool_names))
       = [(_sanitize_agent_name name, definition)]
       /\ def_tools definition
          = match resolved_descriptors (items (connections_list remote))
                    (given tool_names) with
            | [] => None
            | resolved => Some resolved
            end
       /\ agents_create remote (_sanitize_agent_name name) definition = Ok agent
       /\ lookup_attr agent "name" = Some response_name
       /\ agent_name a
          = if truthy response_name then response_name
            else VStr (_sanitize_agent_name name).
Proof.
  intros H.
  assert (Hinv : failure (connections_list remote) = None \/ given tool_names = []).
  { unfold create_foundry_agent in H. rewrite !snd_bind, snd_with_session, snd_bind in H.
    cbn [snd emit] in H.
    destruct (snd (build_tools remote tool_names)) as [tools|e] eqn:E; [|discriminate].
    apply (build_tools_ok_inv _ _ _ E). }
  destruct (create_foundry_agent_trace remote name instructions model tool_names Hinv)
    as [Hs _].
  destruct (build_tools_run remote tool_names Hinv) as (t & Hb & _).
  unfold create_foundry_agent in H. rewrite !snd_bind, snd_with_session, Hb in H.
  cbn [snd emit] in H. rewrite bind_run in H. cbv beta in H. cbn [snd] in H.
  rewrite bind_emit in H. cbn [snd] in H.
  set (resolved := resolved_descriptors _ _) in *.
  fold (definition_of model instructions resolved) in H.
  apply snd_bind_ok in H as [agent [Hagent H]]. cbn in Hagent.
  apply snd_bind_ok in H as [id [Hid H]]. apply snd_bind_ok in H as [rn [Hrn H]].
  cbn in H. injection H as <-. cbn [has_tools tool_types agent_name].
  split; [reflexivity|]. split; [reflexivity|].
  unfold attr in Hrn. cbn in Hrn.
  destruct (lookup_attr agent "name") as [rn'|] eqn:Ern; [|discriminate].
  injection Hrn as ->.
  exists (definition_of model instructions resolved), agent, rn.
  split; [exact Hs|]. split; [cbn; destruct resolved; reflexivity|].
  split; [exact Hagent|]. split; [exact Ern | reflexivity].
Qed.

End CreationClaims.

(** ** The remote-catalog chat path *)
Section RemoteChat.

Local Open Scope list_scope.

(** The inspection of a fetched agent never looks into a definition that
    is not a keyed mapping. *)
Lemma inspect_agent_object_shape (py_str : value -> string) (id name : value)
    (latest : list (string * value)) (cls : string) (entries : list (string * value)) :
  exists version,
    inspect_agent py_str (remote_agent id name latest (VObj cls entries))
    = ([], Ok (version, false)).
Proof. unfold inspect_agent, remote_agent. cbn. eexists. reflexivity. Qed.

(** On a failure of the completion call the sequence is a single
    fragment, chosen by the flag the inspection computed. *)
Lemma chat_failure_classified (py_str : value -> string) (remote : Remote)
    (agent_id message : string) (thread_id : option string)
    (agent agent_name : value) (version : string) (has_mcp_tools : bool) (e : exn) :
  agents_get remote agent_id = Ok agent ->
  attr agent "name" = Ok agent_name ->
  inspect_agent py_str agent = ([], Ok (version, has_mcp_tools)) ->
  openai_client remote = Ok tt ->
  responses_create remote message agent_name version = Raised e ->
  fragments (fst (chat_with_foundry_agent py_str remote agent_id message thread_id))
  = [VStr (if contains "500" (exn_str e) && has_mcp_tools
           then known_limitation else raw_error (exn_str e))]
  /\ snd (chat_with_foundry_agent py_str remote agent_id message thread_id) = Ok tt.
Proof.
  intros Hget Hname Hinspect Hclient Hfail. unfold chat_with_foundry_agent.
  rewrite fst_with_session, snd_with_session, bind_emit, Hget, bind_lift_ok, Hname,
    bind_lift_ok, Hinspect, bind_run.
  cbv beta iota. rewrite Hclient, bind_lift_ok, bind_emit, Hfail. unfold classify.
  cbn [bind lift fst snd try_except app].
  destruct (contains "500" (exn_str e) && has_mcp_tools); split; reflexivity.
Qed.

(** Hence an object-shaped definition always gets the raw error text,
    whatever tools it lists. *)
Lemma chat_object_definition_raw (py_str : value -> string) (remote : Remote)
    (agent_id message : string) (thread_id : option string) (id name : value)
    (latest : list (string * value)) (cls : string) (entries : list (string * value))
    (e : exn) :
  agents_get remote agent_id = Ok (remote_agent id name latest (VObj cls entries)) ->
  openai_client remote = Ok tt ->
  (forall n v, responses_create remote message n v = Raised e) ->
  fragments (fst (chat_with_foundry_agent py_str remote agent_id message thread_id))
  = [VStr (raw_error (exn_str e))].
Proof.
  intros Hget Hclient Hfail.
  destruct (inspect_agent_object_shape py_str id name latest cls entries) as [v Hv].
  destruct (chat_failure_classified py_str remote agent_id message thread_id
              _ name v false e Hget eq_refl Hv Hclient (Hfail _ _)) as [H _].
  rewrite H, andb_false_r. reflexivity.
Qed.

(** C2 (the code falls short of it).  The agent below carries an MCP tool
    and the completion call fails with a 500.  When its definition arrives
    as a keyed mapping the chat produces the fixed explanatory fragment;
    when the same definition arrives as an object the chat produces the raw
    error text, although the listing reports the MCP tool for both shapes. *)
Theorem chat_500_depends_on_definition_shape :
  let as_object := tool_bearing (VObj "PromptAgentDefinition") in
  let as_mapping := tool_bearing VDict in
  option_map tool_types (match snd (summarize sample_str as_object) with
                         | Ok a => Some a
                         | Raised _ => None
                         end) = Some (Some [VStr "mcp"])
  /\ contains "500" (exn_str server_error) = true
  /\ chat_with_foundry_agent sample_str (sample_remote as_mapping) "agent-1" "Hola" None
     = ([Call Connect; Call (AgentsGet "agent-1");
         Call (ResponsesCreate "Hola" (VStr "FavoritePaymentsAgent") "2");
         Yield (VStr known_limitation); Call Release], Ok tt)
  /\ chat_with_foundry_agent sample_str (sample_remote as_object) "agent-1" "Hola" None
     = ([Call Connect; Call (AgentsGet "agent-1");
         Call (ResponsesCreate "Hola" (VStr "FavoritePaymentsAgent") "2");
         Yield (VStr (raw_error (exn_str server_error))); Call Release], Ok tt).
Proof. repeat split. Qed.

End RemoteChat.

(** ** The properties on the sample data *)
Section Witnesses.

Local Open Scope list_scope.

Lemma summaries_consistent_witness :
  Forall consistent sample_listing /\ consistent sample_created.
Proof.
  split.
  - apply (proj1 (summaries_consistent sample_str (sample_remote VNone))). reflexivity.
  - apply (proj2 (summaries_consistent sample_str (sample_remote VNone))
             "FAQ Bot!!" "Answer FAQs" "gpt-4o" (Some ["known"; "unknown"])).
    reflexivity.
Defined.

Lemma chat_with_unknown_agent_witness :
  chat_with_agent sample_factory (sample_remote VNone) "abc" "Hola" None
  = ([Yield (VStr "Error: Agente 'abc' no encontrado.")], Ok tt).
Proof.
  apply (chat_with_unknown_agent sample_factory (sample_remote VNone) "abc" "Hola" None).
  reflexivity.
Defined.

Lemma resolution_skips_unknown_names_witness :
  exists resolved,
    submitted (fst sample_creation)
    = [("FAQ-Bot", {| def_model := "gpt-4o"; def_instructions := "Answer FAQs";
                      def_tools := match resolved with [] => None | _ => Some resolved end |})]
    /\ map server_label resolved = ["known"]
    /\ warnings (fst sample_creation) = ["unknown"]
    /\ Forall (attaches [known_connection]) resolved.
Proof.
  apply (resolution_skips_unknown_names (sample_remote VNone) "FAQ Bot!!" "Answer FAQs"
           "gpt-4o" (Some ["known"; "unknown"])).
  reflexivity.
Defined.

Lemma submitted_tools_absent_or_resolved_witness :
  exists definition,
    submitted (fst sample_creation) = [("FAQ-Bot", definition)]
    /\ (Some ["known"; "unknown"] = None \/ [known_descriptor] = [] ->
        def_tools definition = None)
    /\ ([known_descriptor] <> [] -> def_tools definition = Some [known_descriptor])
    /\ def_tools definition <> Some [].
Proof.
  apply (submitted_tools_absent_or_resolved (sample_remote VNone) "FAQ Bot!!"
           "Answer FAQs" "gpt-4o" (Some ["known"; "unknown"])).
  left. reflexivity.
Defined.

Lemma created_summary_defaults_witness :
  has_tools sample_created = false
  /\ tool_types sample_created = None
  /\ exists definition agent response_name,
       submitted (fst sample_creation) = [("FAQ-Bot", definition)]
       /\ def_tools definition = Some [known_descriptor]
       /\ agents_create (sample_remote VNone) "FAQ-Bot" definition = Ok agent
       /\ lookup_attr agent "name" = Some response_name
       /\ agent_name sample_created
          = if truthy response_name then response_name else VStr "FAQ-Bot".
Proof.
  apply (created_summary_defaults (sample_remote VNone) "FAQ Bot!!" "Answer FAQs"
           "gpt-4o" (Some ["known"; "unknown"]) sample_created).
  reflexivity.
Defined.

End Witnesses.

(** * Further properties *)

(** ** NameSanitizer: what it keeps of the input *)
Section SanitizerContent.

Local Open Scope list_scope.

Implicit Types (l : list ascii) (c : ascii).

Lemma alnum_not_hyphen c : is_alnum c = true -> is_hyphen c = false.
Proof.
  intros H. destruct (is_hyphen c) eqn:E; [|reflexivity].
  rewrite (is_hyphen_not_alnum _ E) in H. discriminate.
Qed.

Lemma alnum_allowed c : is_alnum c = true -> allowed c = true.
Proof. unfold allowed. intros ->. reflexivity. Qed.

Lemma filter_alnum_hyphens l :
  forallb is_hyphen l = true -> List.filter is_alnum l = [].
Proof.
  induction l as [|c l IH]; simpl; [reflexivity|].
  intros [Hc Hl]%andb_true_iff. rewrite (is_hyphen_not_alnum _ Hc). apply IH, Hl.
Qed.

Lemma filter_alnum_replace l :
  List.filter is_alnum (replace_invalid l) = List.filter is_alnum l.
Proof.
  induction l as [|c l IH]; simpl; [reflexivity|].
  unfold allowed. destruct (is_alnum c) eqn:Ea; simpl.
  - rewrite Ea, IH. reflexivity.
  - destruct (is_hyphen c); [rewrite Ea | simpl]; exact IH.
Qed.

Lemma filter_alnum_collapse l :
  List.filter is_alnum (collapse_hyphens l) = List.filter is_alnum l.
Proof.
  induction l as [|c l IH]; simpl; [reflexivity|].
  destruct (is_hyphen c) eqn:Eh; simpl.
  - rewrite (is_hyphen_not_alnum _ Eh).
    destruct (starts_with_hyphen l); simpl; [|rewrite (is_hyphen_not_alnum _ Eh)]; exact IH.
  - rewrite IH. reflexivity.
Qed.

Lemma filter_alnum_lstrip l : List.filter is_alnum (lstrip l) = List.filter is_alnum l.
Proof.
  destruct (lstrip_split l) as [p [Hp Hh]]. rewrite Hp at 2.
  rewrite List.filter_app, (filter_alnum_hyphens _ Hh). reflexivity.
Qed.

Lemma filter_alnum_rstrip l : List.filter is_alnum (rstrip l) = List.filter is_alnum l.
Proof.
  destruct (rstrip_split l) as [q [Hq Hh]]. rewrite Hq at 2.
  rewrite List.filter_app, (filter_alnum_hyphens _ Hh), app_nil_r. reflexivity.
Qed.

Lemma length_collapse l : length (collapse_hyphens l) <= length l.
Proof.
  induction l as [|c l IH]; simpl; [lia|].
  destruct (is_hyphen c && starts_with_hyphen l); simpl; lia.
Qed.

Lemma length_lstrip l : length (lstrip l) <= length l.
Proof.
  destruct (lstrip_split l) as [p [Hp _]]. rewrite Hp at 2. rewrite length_app. lia.
Qed.

Lemma length_rstrip l : length (rstrip l) <= length l.
Proof.
  destruct (rstrip_split l) as [q [Hq _]]. rewrite Hq at 2. rewrite length_app. lia.
Qed.

(** A string of hyphens is stripped to nothing. *)
Lemma lstrip_hyphens l : forallb is_hyphen l = true -> lstrip l = [].
Proof.
  induction l as [|c l IH]; simpl; [reflexivity|].
  intros [Hc Hl]%andb_true_iff. rewrite Hc. apply IH, Hl.
Qed.

(** After the first three steps, what stands in front is the first
    character that is not a hyphen. *)
Lemma lstrip_collapse_front (h : list ascii) c (r : list ascii) :
  forallb is_hyphen h = true -> is_hyphen c = false ->
  lstrip (collapse_hyphens (h ++ c :: r)) = c :: collapse_hyphens r.
Proof.
  intros Hh Hc. induction h as [|a h IH]; simpl.
  - rewrite Hc. simpl. rewrite Hc. reflexivity.
  - simpl in Hh. apply andb_true_iff in Hh as [Ha Hh]. rewrite Ha. simpl.
    destruct (starts_with_hyphen (h ++ c :: r)); [apply IH, Hh|].
    simpl. rewrite Ha. apply IH, Hh.
Qed.

Lemma rstrip_keeps_head c l :
  is_hyphen c = false -> exists t, rstrip (c :: l) = c :: t.
Proof.
  intros Hc. destruct (rstrip_split (c :: l)) as [q [Hq Hh]].
  destruct (rstrip (c :: l)) as [|d t] eqn:E.
  - simpl in Hq. subst q. simpl in Hh. rewrite Hc in Hh. discriminate.
  - injection Hq as <- _. exists t. reflexivity.
Qed.

(** The input cut at its first alphanumeric character. *)
Lemma find_alnum_split l c :
  List.find is_alnum l = Some c ->
  exists pre post,
    l = pre ++ c :: post /\ is_alnum c = true
    /\ forallb (fun x => negb (is_alnum x)) pre = true.
Proof.
  induction l as [|x l IH]; simpl; [discriminate|].
  destruct (is_alnum x) eqn:E.
  - intros [= <-]. exists [], l. repeat split. exact E.
  - intros H. destruct (IH H) as (pre & post & -> & Hc & Hpre).
    exists (x :: pre), post. simpl. rewrite E. repeat split; assumption.
Qed.

Lemma replace_non_alnum l :
  forallb (fun x => negb (is_alnum x)) l = true ->
  forallb is_hyphen (replace_invalid l) = true.
Proof.
  induction l as [|x l IH]; simpl; [reflexivity|].
  intros [Hx Hl]%andb_true_iff. apply negb_true_iff in Hx.
  rewrite (IH Hl), andb_true_r. unfold allowed. rewrite Hx. simpl.
  destruct (is_hyphen x) eqn:E; [exact E | reflexivity].
Qed.

Lemma collapse_hyphens_all l :
  forallb is_hyphen l = true -> forallb is_hyphen (collapse_hyphens l) = true.
Proof.
  induction l as [|x l IH]; simpl; [reflexivity|].
  intros [Hx Hl]%andb_true_iff.
  destruct (is_hyphen x && starts_with_hyphen l); simpl; [|rewrite Hx]; apply IH, Hl.
Qed.

Lemma find_alnum_none l :
  List.find is_alnum l = None -> forallb (fun x => negb (is_alnum x)) l = true.
Proof.
  induction l as [|x l IH]; simpl; [reflexivity|].
  destruct (is_alnum x); [discriminate|]. exact IH.
Qed.

Lemma sanitize_steps_front l c :
  List.find is_alnum l = Some c ->
  exists t,
    rstrip (take max_length (strip (collapse_hyphens (replace_invalid l)))) = c :: t.
Proof.
  intros E. unfold strip.
  destruct (find_alnum_split _ _ E) as (pre & post & -> & Hc & Hpre).
  unfold replace_invalid. rewrite map_app. simpl. rewrite (alnum_allowed _ Hc).
  fold (replace_invalid pre). fold (replace_invalid post).
  rewrite (lstrip_collapse_front _ _ _ (replace_non_alnum _ Hpre) (alnum_not_hyphen _ Hc)).
  destruct (rstrip_keeps_head c (collapse_hyphens (replace_invalid post))
              (alnum_not_hyphen _ Hc)) as [t ->].
  simpl. apply rstrip_keeps_head, alnum_not_hyphen, Hc.
Qed.

Lemma sanitize_chars_front l :
  match List.find is_alnum l with
  | Some c => exists t, sanitize_chars l = c :: t
  | None => sanitize_chars l = fallback
  end.
Proof.
  destruct (List.find is_alnum l) as [c|] eqn:E.
  - destruct (sanitize_steps_front _ _ E) as [t Ht]. exists t.
    unfold sanitize_chars. rewrite Ht. reflexivity.
  - unfold sanitize_chars, strip.
    rewrite (lstrip_hyphens _ (collapse_hyphens_all _
               (replace_non_alnum _ (find_alnum_none _ E)))).
    reflexivity.
Qed.

(** The sanitized name starts with the first alphanumeric character of
    the input; an input without any gives the fallback identifier. *)
Theorem sanitize_starts_with_first_alnum (x : string) :
  match List.find is_alnum (list_ascii_of_string x) with
  | Some c => exists rest, _sanitize_agent_name x = String c rest
  | None => _sanitize_agent_name x = "agent"%string
  end.
Proof.
  unfold _sanitize_agent_name.
  pose proof (sanitize_chars_front (list_ascii_of_string x)) as H.
  destruct (List.find is_alnum (list_ascii_of_string x)) as [c|].
  - destruct H as [t ->]. exists (string_of_list_ascii t). reflexivity.
  - rewrite H. reflexivity.
Qed.

Lemma sanitize_steps_alnums l :
  exists k,
    List.filter is_alnum l
    = List.filter is_alnum
        (rstrip (take max_length (strip (collapse_hyphens (replace_invalid l))))) ++ k
    /\ (length (collapse_hyphens (replace_invalid l)) <= max_length -> k = []).
Proof.
  set (s := strip (collapse_hyphens (replace_invalid l))).
  assert (Hs : List.filter is_alnum s = List.filter is_alnum l).
  { unfold s, strip.
    rewrite filter_alnum_rstrip, filter_alnum_lstrip, filter_alnum_collapse.
    apply filter_alnum_replace. }
  assert (Hlen : length s <= length (collapse_hyphens (replace_invalid l))).
  { unfold s, strip. etransitivity; [apply length_rstrip|]. apply length_lstrip. }
  exists (List.filter is_alnum (drop max_length s)). split.
  - rewrite filter_alnum_rstrip, <- List.filter_app, take_drop. symmetry. exact Hs.
  - intros H. rewrite drop_ge by lia. reflexivity.
Qed.

(** A byte that is not below 128 is replaced by a hyphen. *)
Lemma high_byte_replaced c :
  (128 <=? nat_of_ascii c)%nat = true -> (if allowed c then c else hyphen) = hyphen.
Proof. destruct c as [[] [] [] [] [] [] [] []]; vm_compute; congruence. Qed.

Lemma continuation_is_high c :
  is_continuation c = true -> (128 <=? nat_of_ascii c)%nat = true.
Proof. destruct c as [[] [] [] [] [] [] [] []]; vm_compute; congruence. Qed.

(** The bytes of one character collapse into one hyphen at most: after
    the first two steps the name has no more bytes than the input has
    characters. *)
Lemma length_collapse_characters l :
  continuations_attached l = true ->
  length (collapse_hyphens (replace_invalid l))
  <= length (List.filter (fun c => negb (is_continuation c)) l)
     + (if starts_with_continuation l then 1 else 0).
Proof.
  induction l as [|c tl IH]; [simpl; lia|].
  cbn [continuations_attached]. intros [Hc Htl]%andb_true_iff.
  specialize (IH Htl).
  cbn [replace_invalid map collapse_hyphens List.filter starts_with_continuation].
  fold (replace_invalid tl).
  destruct tl as [|d tl'].
  - cbn. rewrite andb_false_r. destruct (is_continuation c); cbn; lia.
  - cbn [starts_with_continuation] in *.
    destruct (is_continuation d) eqn:Ed.
    + cbn [negb orb] in Hc.
      rewrite (high_byte_replaced c Hc).
      cbn [replace_invalid map starts_with_hyphen].
      rewrite (high_byte_replaced d (continuation_is_high d Ed)).
      change (is_hyphen hyphen) with true. cbn [andb].
      cbn [replace_invalid map] in IH.
      rewrite (high_byte_replaced d (continuation_is_high d Ed)) in IH.
      destruct (is_continuation c); cbn [negb length]; lia.
    + destruct (is_hyphen _ && starts_with_hyphen _);
        destruct (is_continuation c); cbn [negb length]; lia.
Qed.

(** When the input has an alphanumeric character, the alphanumerics of
    the sanitized name are the first ones of the input, unchanged and in
    order; none is lost when the input has at most 63 characters, however
    many bytes its characters take (and, all the more, when it has at most
    63 bytes). *)
Theorem sanitize_keeps_alnums (x : string) :
  List.find is_alnum (list_ascii_of_string x) <> None ->
  exists dropped,
    alnums x = alnums (_sanitize_agent_name x) ++ dropped
    /\ (String.length x <= 63 -> dropped = [])
    /\ (encoded x = true -> characters x <= 63 -> dropped = []).
Proof.
  intros Hx. unfold alnums, _sanitize_agent_name.
  rewrite list_ascii_of_string_of_list_ascii.
  destruct (List.find is_alnum (list_ascii_of_string x)) as [c|] eqn:E; [|congruence].
  destruct (sanitize_steps_front _ _ E) as [t Ht].
  destruct (sanitize_steps_alnums (list_ascii_of_string x)) as (k & Hk & Hshort).
  exists k. unfold sanitize_chars. rewrite Ht, <- Ht. split; [exact Hk|]. split.
  - intros Hlen. apply Hshort. etransitivity; [apply length_collapse|].
    unfold replace_invalid. rewrite length_map.
    rewrite <- length_string_of_list_ascii, string_of_list_ascii_of_string. exact Hlen.
  - unfold encoded, characters. intros [Hfirst Hatt]%andb_true_iff Hlen.
    apply Hshort. etransitivity; [apply (length_collapse_characters _ Hatt)|].
    apply negb_true_iff in Hfirst. rewrite Hfirst. unfold max_length. lia.
Qed.

Lemma sanitize_keeps_alnums_witness :
  String.length "aññññññññññññññññññññññññññññññññññññññññb" = 82
  /\ characters "aññññññññññññññññññññññññññññññññññññññññb" = 42
  /\ _sanitize_agent_name "aññññññññññññññññññññññññññññññññññññññññb" = "a-b"%string
  /\ alnums "aññññññññññññññññññññññññññññññññññññññññb"
     = alnums (_sanitize_agent_name "aññññññññññññññññññññññññññññññññññññññññb").
Proof.
  split; [reflexivity|]. split; [reflexivity|]. split; [reflexivity|].
  destruct (sanitize_keeps_alnums "aññññññññññññññññññññññññññññññññññññññññb")
    as (dropped & Hkept & _ & Hnone).
  - simpl. discriminate.
  - rewrite Hkept, (Hnone eq_refl), app_nil_r; [reflexivity|].
    change (42 <= 63). lia.
Defined.

(** The names the sanitizer leaves unchanged are exactly those that
    satisfy the naming grammar. *)
Theorem sanitize_fixed_points (s : string) :
  _sanitize_agent_name s = s <-> valid_name s = true.
Proof.
  split.
  - intros <-. apply sanitize_valid_name.
  - intros H. unfold _sanitize_agent_name.
    rewrite (sanitize_chars_fixed _ H). apply string_of_list_ascii_of_string.
Qed.

Lemma all_alnum_head l : forallb is_alnum l = true -> starts_with_hyphen l = false.
Proof.
  destruct l as [|c l]; simpl; [reflexivity|].
  intros [Hc _]%andb_true_iff. apply alnum_not_hyphen, Hc.
Qed.

Lemma all_alnum_allowed l : forallb is_alnum l = true -> forallb allowed l = true.
Proof.
  induction l as [|c l IH]; simpl; [reflexivity|].
  intros [Hc Hl]%andb_true_iff. rewrite (alnum_allowed _ Hc). apply IH, Hl.
Qed.

Lemma all_alnum_single l : forallb is_alnum l = true -> no_double_hyphen l = true.
Proof.
  induction l as [|c l IH]; simpl; [reflexivity|].
  intros [Hc Hl]%andb_true_iff. rewrite (alnum_not_hyphen _ Hc). simpl. apply IH, Hl.
Qed.

Lemma all_alnum_take n l : forallb is_alnum l = true -> forallb is_alnum (take n l) = true.
Proof.
  intros H. rewrite <- (take_drop n l), forallb_app in H.
  apply andb_true_iff in H. apply H.
Qed.

Lemma substring_take (n : nat) (s : string) :
  string_of_list_ascii (take n (list_ascii_of_string s)) = String.substring 0 n s.
Proof.
  revert n. induction s as [|c s IH]; intros [|n]; simpl; try reflexivity.
  rewrite IH. reflexivity.
Qed.

(** A non-empty name made of alphanumeric characters only is cut to its
    first 63 characters and otherwise left alone. *)
Theorem sanitize_alnum_only_truncates (x : string) :
  x <> EmptyString ->
  forallb is_alnum (list_ascii_of_string x) = true ->
  _sanitize_agent_name x = String.substring 0 63 x.
Proof.
  intros Hne Hall. rewrite <- substring_take. unfold _sanitize_agent_name. f_equal.
  unfold sanitize_chars, strip, max_length.
  rewrite (replace_invalid_id _ (all_alnum_allowed _ Hall)).
  rewrite (collapse_hyphens_id _ (all_alnum_single _ Hall)).
  rewrite (lstrip_id _ (all_alnum_head _ Hall)).
  rewrite (rstrip_id (list_ascii_of_string x))
    by (apply all_alnum_head; rewrite forallb_rev; exact Hall).
  rewrite rstrip_id
    by (apply all_alnum_head; rewrite forallb_rev; apply all_alnum_take, Hall).
  destruct x as [|c x]; [congruence | reflexivity].
Qed.

Lemma sanitize_alnum_only_truncates_witness :
  _sanitize_agent_name "Agente2025" = String.substring 0 63 "Agente2025".
Proof. apply (sanitize_alnum_only_truncates "Agente2025"); [discriminate | reflexivity]. Defined.

End SanitizerContent.

(** ** The local registry and the endpoint that reads it *)
Section Registry.

Lemma length_substring_le (n : nat) (s : string) :
  String.length (String.substring 0 n s) <= n.
Proof.
  revert n. induction s as [|c s IH]; intros [|n]; simpl; try lia.
  specialize (IH n). lia.
Qed.

(** A configuration just created is found under its id, which is the
    first characters (eight at most) of the identifier drawn; the
    configurations under every other id are as before. *)
Theorem create_agent_config_then_get (self : AgentFactory) (uuid4 now : string)
    (name description purpose personality : string)
    (capabilities rules : option (list string)) :
  let created :=
    create_agent_config self uuid4 now name description purpose personality
      capabilities rules in
  get_agent_config (snd created) (config_id (fst created)) = Some (fst created)
  /\ config_id (fst created) = String.substring 0 8 uuid4
  /\ String.length (config_id (fst created)) <= 8
  /\ forall other, other <> config_id (fst created) ->
       get_agent_config (snd created) other = get_agent_config self other.
Proof.
  cbv zeta. unfold create_agent_config, get_agent_config. cbn [fst snd agents config_id].
  split; [apply lookup_insert_eq|]. split; [reflexivity|].
  split; [apply length_substring_le|].
  intros other Hother. apply lookup_insert_ne. congruence.
Qed.

(** The id is not checked for freshness: a second creation whose
    identifier starts with the same eight characters takes the place of the
    first configuration, and the registry does not grow. *)
Theorem create_agent_config_collision (self : AgentFactory) (u1 u2 now1 now2 : string)
    (name1 description1 purpose1 personality1 : string)
    (name2 description2 purpose2 personality2 : string)
    (capabilities1 rules1 capabilities2 rules2 : option (list string)) :
  String.substring 0 8 u1 = String.substring 0 8 u2 ->
  let first :=
    create_agent_config self u1 now1 name1 description1 purpose1 personality1
      capabilities1 rules1 in
  let second :=
    create_agent_config (snd first) u2 now2 name2 description2 purpose2 personality2
      capabilities2 rules2 in
  get_agent_config (snd second) (config_id (fst first)) = Some (fst second)
  /\ size (agents (snd second)) = size (agents (snd first)).
Proof.
  intros Hid. cbv zeta. unfold create_agent_config, get_agent_config.
  cbn [fst snd agents config_id]. rewrite <- Hid. split; [apply lookup_insert_eq|].
  apply map_size_insert_Some. rewrite lookup_insert_eq. eexists. reflexivity.
Qed.

Lemma create_agent_config_collision_witness :
  let first :=
    create_agent_config sample_factory "1a2b3c4d-0000" "t1" "uno" "d1" "p1" "q1" None None in
  let second :=
    create_agent_config (snd first) "1a2b3c4d-ffff" "t2" "dos" "d2" "p2" "q2" None None in
  get_agent_config (snd second) (config_id (fst first)) = Some (fst second)
  /\ size (agents (snd second)) = size (agents (snd first)).
Proof.
  apply (create_agent_config_collision sample_factory "1a2b3c4d-0000" "1a2b3c4d-ffff").
  reflexivity.
Defined.

(** The endpoint [get_agent] answers 404 for every id on the factory the
    application starts with, 500 while there is no factory, and the stored
    id, name, description and creation time for a configuration that
    [create_agent_config] has added. *)
Theorem get_agent_answers (endpoint : option string) (deployment : string)
    (factory : AgentFactory) :
  lifespan endpoint deployment = inr factory ->
  (forall agent_id, get_agent (Some factory) agent_id = HTTPException 404 "Agent not found")
  /\ (forall agent_id,
        get_agent None agent_id = HTTPException 500 "Agent factory not initialized")
  /\ (forall uuid4 now name description purpose personality capabilities rules,
        get_agent
          (Some (snd (create_agent_config factory uuid4 now name description purpose
                        personality capabilities rules)))
          (String.substring 0 8 uuid4)
        = Response {| response_id := String.substring 0 8 uuid4;
                      response_name := name;
                      response_description := description;
                      response_created_at := now |}).
Proof.
  intros Hstart.
  assert (Hempty : agents factory = ∅).
  { unfold lifespan in Hstart. destruct endpoint as [[|c e]|]; [discriminate| |discriminate].
    injection Hstart as <-. reflexivity. }
  split; [|split].
  - intros agent_id. unfold get_agent, get_agent_config. rewrite Hempty, lookup_empty.
    reflexivity.
  - reflexivity.
  - intros. unfold get_agent, get_agent_config, create_agent_config. cbn [snd agents].
    rewrite lookup_insert_eq. reflexivity.
Qed.

Lemma get_agent_answers_witness :
  get_agent (Some (new_factory "https://example.invalid/p" "gpt-4o")) "1a2b3c4d"
  = HTTPException 404 "Agent not found".
Proof.
  apply (get_agent_answers (Some "https://example.invalid/p") "gpt-4o"). reflexivity.
Defined.

End Registry.

Section RegistryWitness.

Lemma create_agent_config_then_get_witness :
  get_agent_config
    (snd (create_agent_config sample_factory "1a2b3c4d-0000" "t1" "uno" "d1" "p1" "q1"
            None None)) "ffffffff"
  = get_agent_config sample_factory "ffffffff".
Proof.
  apply (create_agent_config_then_get sample_factory "1a2b3c4d-0000" "t1" "uno" "d1" "p1"
           "q1" None None).
  simpl. discriminate.
Defined.

End RegistryWitness.

(** ** Listing tools and agents *)
Section ListingMore.

Local Open Scope list_scope.

Lemma foldl_tools (inventory : list Connection) (acc : list FoundryTool) :
  foldl (fun tools conn =>
           if contains "REMOTE_TOOL" (conn_type conn)
           then tools ++ [{| tool_id := conn_id conn; tool_name := conn_name conn;
                             tool_target := conn_url conn; tool_type := "mcp" |}]
           else tools) acc inventory
  = acc ++ map tool_of (List.filter is_remote_tool inventory).
Proof.
  revert acc. induction inventory as [|conn rest IH]; intros acc; simpl.
  - rewrite app_nil_r. reflexivity.
  - rewrite IH. unfold is_remote_tool at 2.
    destruct (contains "REMOTE_TOOL" (conn_type conn)); [|reflexivity].
    rewrite <- app_assoc. reflexivity.
Qed.

(** [list_foundry_tools] opens a session, enumerates the connections once
    and releases the session.  It returns one tool, of kind mcp, for each
    connection whose type text contains REMOTE_TOOL, in enumeration order
    and without removing duplicates; when the enumeration fails it raises
    that failure and returns nothing. *)
Theorem list_foundry_tools_filters (remote : Remote) :
  list_foundry_tools remote
  = ([Call Connect; Call ConnectionsList; Call Release],
     match failure (connections_list remote) with
     | Some e => Raised e
     | None =>
         Ok (map tool_of (List.filter is_remote_tool (items (connections_list remote))))
     end).
Proof.
  unfold list_foundry_tools. rewrite bind_emit, async_fold_pure, foldl_tools.
  destruct (failure (connections_list remote)); reflexivity.
Qed.

Lemma summarize_id_name (py_str : value -> string) (agent : value) (a : FoundryAgent) :
  snd (summarize py_str agent) = Ok a ->
  lookup_attr agent "id" = Some (agent_id a)
  /\ exists n, lookup_attr agent "name" = Some n
               /\ agent_name a = or_else n (VStr "Sin nombre").
Proof.
  unfold summarize. intros H.
  apply snd_bind_ok in H as [[[[[model description] created_at] has] types] [_ H]].
  apply snd_bind_ok in H as [id [Hid H]]. apply snd_bind_ok in H as [name [Hname H]].
  simpl in H. injection H as <-. unfold attr in Hid, Hname. cbn in Hid, Hname.
  destruct (lookup_attr agent "id") as [id'|]; [|discriminate].
  destruct (lookup_attr agent "name") as [name'|]; [|discriminate].
  injection Hid as ->. injection Hname as ->.
  split; [reflexivity|]. exists name. split; reflexivity.
Qed.

Lemma listing_fold (py_str : value -> string) (l : list value)
    (m : M (list FoundryAgent)) (found : list FoundryAgent) :
  snd (foldl (fun m agent =>
                let* acc := m in
                let* a := summarize py_str agent in ret (acc ++ [a])) m l) = Ok found ->
  exists found0 rest,
    snd m = Ok found0 /\ found = found0 ++ rest
    /\ Forall2 (fun agent a => snd (summarize py_str agent) = Ok a) l rest.
Proof.
  revert m. induction l as [|agent l IH]; intros m; simpl.
  - intros H. exists found, []. rewrite app_nil_r. repeat split; [exact H | constructor].
  - intros H. destruct (IH _ H) as (found0 & rest & Hm & -> & Hrest).
    apply snd_bind_ok in Hm as [acc [Hacc Hm]].
    apply snd_bind_ok in Hm as [a [Ha Hm]]. injection Hm as <-.
    exists acc, (a :: rest). rewrite <- app_assoc. repeat split; [exact Hacc|].
    constructor; assumption.
Qed.

Lemma listing_pointwise (py_str : value -> string) (remote : Remote)
    (found : list FoundryAgent) :
  snd (list_foundry_agents py_str remote) = Ok found ->
  Forall2 (fun agent a => snd (summarize py_str agent) = Ok a)
    (items (agents_list remote)) found.
Proof.
  unfold list_foundry_agents. rewrite snd_with_session. intros H.
  apply snd_bind_ok in H as [[] [_ H]]. unfold async_fold in H.
  apply snd_bind_ok in H as [acc [Hfold H]].
  assert (acc = found) as -> by (destruct (failure (agents_list remote)); simpl in H; congruence).
  destruct (listing_fold _ _ _ _ Hfold) as (found0 & rest & Hm & -> & Hrest).
  injection Hm as <-. exact Hrest.
Qed.

(** A listing that succeeds holds one summary for each enumerated agent,
    in enumeration order, none filtered out: each carries the id of its
    agent and its name, or the placeholder name when the agent has an empty
    one. *)
Theorem listing_one_summary_per_agent (py_str : value -> string) (remote : Remote)
    (found : list FoundryAgent) :
  snd (list_foundry_agents py_str remote) = Ok found ->
  length found = length (items (agents_list remote))
  /\ Forall2 (fun agent a =>
                lookup_attr agent "id" = Some (agent_id a)
                /\ exists n, lookup_attr agent "name" = Some n
                             /\ agent_name a = or_else n (VStr "Sin nombre"))
       (items (agents_list remote)) found.
Proof.
  intros H. apply listing_pointwise in H. split.
  - symmetry. apply (Forall2_length _ _ _ H).
  - induction H as [|agent a l found' Ha _ IH]; constructor; [|exact IH].
    apply (summarize_id_name py_str), Ha.
Qed.

Lemma listing_one_summary_per_agent_witness :
  length sample_listing = 2
  /\ Forall2 (fun agent a =>
                lookup_attr agent "id" = Some (agent_id a)
                /\ exists n, lookup_attr agent "name" = Some n
                             /\ agent_name a = or_else n (VStr "Sin nombre"))
       [tool_bearing VDict; tool_free] sample_listing.
Proof.
  apply (listing_one_summary_per_agent sample_str (sample_remote VNone) sample_listing).
  reflexivity.
Defined.

(** The listing is all or nothing: when the processing of one enumerated
    agent raises (its tools cannot be measured, it lacks an id or a name),
    or when the enumeration itself fails, the whole call raises and no
    summary is returned. *)
Theorem listing_all_or_nothing (py_str : value -> string) (remote : Remote) :
  (exists agent e,
     In agent (items (agents_list remote)) /\ snd (summarize py_str agent) = Raised e)
  \/ failure (agents_list remote) <> None ->
  exists e, snd (list_foundry_agents py_str remote) = Raised e.
Proof.
  intros H. destruct (snd (list_foundry_agents py_str remote)) as [found|e] eqn:E;
    [exfalso | exists e; reflexivity].
  destruct H as [(agent & e & Hin & Hraise) | Hfail].
  - apply listing_pointwise in E. clear -E Hin Hraise.
    induction E as [|x a l found' Ha _ IH]; [destruct Hin|].
    destruct Hin as [-> | Hin]; [congruence | apply IH, Hin].
  - unfold list_foundry_agents in E. rewrite snd_with_session in E.
    apply snd_bind_ok in E as [[] [_ E]]. unfold async_fold in E.
    apply snd_bind_ok in E as [acc [_ E]].
    destruct (failure (agents_list remote)); [discriminate | congruence].
Qed.

End ListingMore.

Section ListingTags.

Local Open Scope list_scope.

Lemma summarize_tool_tags (py_str : value -> string) (a : shaped_agent)
    (t : value) (ts : list value) :
  assoc "tools" (shaped_entries a) = Some (VList (t :: ts)) ->
  exists s,
    summarize py_str (as_mapping a) = ([], Ok s)
    /\ has_tools s = true
    /\ tool_types s = Some (map type_of_tool (t :: ts))
    /\ agent_id s = shaped_id a.
Proof.
  destruct a as [id name latest cls entries]. cbn [shaped_entries shaped_id]. intros H.
  assert (Ht : truthy (VDict entries) = true)
    by (destruct entries; [discriminate | reflexivity]).
  unfold as_mapping, remote_agent, summarize. simpl in *. rewrite Ht.
  unfold dict_get. rewrite H. simpl.
  eexists. split; [reflexivity|]. repeat split.
Qed.

(** A definition whose tools are a non-empty list gives, in either shape,
    a summary with [has_tools] and one tag for each tool, in the order of
    the tools: the type of the tool, or unknown for a tool without one. *)
Theorem listing_tags_follow_tools (py_str : value -> string) (remote : Remote)
    (a : shaped_agent) (t : value) (ts : list value) :
  assoc "tools" (shaped_entries a) = Some (VList (t :: ts)) ->
  exists s,
    snd (list_foundry_agents py_str
           (with_agents remote {| items := [as_mapping a]; failure := None |})) = Ok [s]
    /\ snd (list_foundry_agents py_str
              (with_agents remote {| items := [as_object a]; failure := None |})) = Ok [s]
    /\ has_tools s = true
    /\ tool_types s = Some (map type_of_tool (t :: ts))
    /\ length (default [] (tool_types s)) = length (t :: ts)
    /\ (forall entries, assoc "type" entries = None ->
          type_of_tool (VDict entries) = VStr "unknown").
Proof.
  intros H. destruct (summarize_tool_tags py_str a t ts H) as (s & Hs & Hhas & Htypes & _).
  exists s. unfold list_foundry_agents, async_fold, with_agents. cbn [agents_list items failure foldl].
  rewrite <- summarize_shape, Hs. split; [reflexivity|]. split; [reflexivity|].
  split; [exact Hhas|]. split; [exact Htypes|]. split.
  - rewrite Htypes. cbn [default]. apply length_map.
  - intros entries He. unfold type_of_tool, dict_get. rewrite He. reflexivity.
Qed.

End ListingTags.

(** ** Creation: failures and bookkeeping *)
Section CreationMore.

Local Open Scope list_scope.

Lemma create_abort_run (remote : Remote)
    (name instructions model : string) (tool_names : option (list string)) (e : exn) :
  given tool_names <> [] ->
  failure (connections_list remote) = Some e ->
  create_foundry_agent remote name instructions model tool_names
  = ([Print LineCalled; Print (LineName name (_sanitize_agent_name name));
      Print (LineToolNames tool_names); Call Connect;
      Print (LineProcessing (length (given tool_names))); Call ConnectionsList;
      Call Release],
     Raised e).
Proof.
  intros Hnames Hfail. unfold create_foundry_agent, build_tools.
  destruct (given tool_names) as [|n names]; [congruence|].
  cbv beta iota zeta. rewrite !bind_emit. cbn [fst snd].
  rewrite async_fold_pure, Hfail. reflexivity.
Qed.

(** When tool names are requested and the enumeration of the connections
    fails, creation stops there: the failure reaches the caller, nothing is
    submitted to the service and no warning is printed; the session is
    released all the same. *)
Theorem create_aborts_when_inventory_fails (remote : Remote)
    (name instructions model : string) (tool_names : option (list string)) (e : exn) :
  given tool_names <> [] ->
  failure (connections_list remote) = Some e ->
  create_foundry_agent remote name instructions model tool_names
  = ([Print LineCalled; Print (LineName name (_sanitize_agent_name name));
      Print (LineToolNames tool_names); Call Connect;
      Print (LineProcessing (length (given tool_names))); Call ConnectionsList;
      Call Release],
     Raised e)
  /\ submitted (fst (create_foundry_agent remote name instructions model tool_names)) = []
  /\ warnings (fst (create_foundry_agent remote name instructions model tool_names)) = [].
Proof.
  intros Hnames Hfail.
  rewrite (create_abort_run remote name instructions model tool_names e Hnames Hfail).
  repeat split.
Qed.

(** Without requested names (absent or an empty list) the connections are
    not enumerated at all: inside the session the only call is the
    submission of a definition without tools. *)
Theorem create_without_names_skips_inventory (remote : Remote)
    (name instructions model : string) (tool_names : option (list string)) :
  given tool_names = [] ->
  calls (fst (create_foundry_agent remote name instructions model tool_names))
  = [Connect;
     AgentsCreate (_sanitize_agent_name name)
       {| def_model := model; def_instructions := instructions; def_tools := None |};
     Release].
Proof.
  intros Hnames. unfold create_foundry_agent, build_tools. rewrite Hnames.
  cbv beta iota zeta. rewrite !bind_emit. cbn [fst snd].
  rewrite fst_with_session. unfold ret at 1. rewrite bind_run. cbv beta.
  rewrite bind_emit. cbn [fst snd app].
  set (rest := bind (lift _) _).
  assert (Hrest : fst rest = []).
  { unfold rest, lift. destruct (agents_create _ _ _) as [agent|e]; [|reflexivity].
    rewrite bind_run. cbv beta. unfold attr.
    destruct (lookup_attr agent "id"); [|reflexivity]. rewrite bind_run. cbv beta.
    destruct (lookup_attr agent "name"); reflexivity. }
  rewrite Hrest. reflexivity.
Qed.

(** Whatever the display name and whatever the service does, a definition
    is submitted at most once, under the sanitized name, and that name
    satisfies the naming grammar. *)
Theorem submitted_name_is_valid (remote : Remote) (name instructions model : string)
    (tool_names : option (list string)) :
  let sent := submitted (fst (create_foundry_agent remote name instructions model
                                tool_names)) in
  length sent <= 1
  /\ Forall (fun s => fst s = _sanitize_agent_name name /\ valid_name (fst s) = true) sent.
Proof.
  cbv zeta.
  destruct (failure (connections_list remote)) as [e|] eqn:Ef.
  - destruct (given tool_names) as [|n names] eqn:En.
    + destruct (create_foundry_agent_trace remote name instructions model tool_names
                  (or_intror En)) as [Hs _].
      cbv zeta in Hs. rewrite Hs. split; [simpl; lia|].
      constructor; [|constructor]. split; [reflexivity | apply sanitize_valid_name].
    + rewrite (create_abort_run remote name instructions model
                 tool_names e); [|congruence | exact Ef].
      split; [simpl; lia | constructor].
  - destruct (create_foundry_agent_trace remote name instructions model tool_names
                (or_introl Ef)) as [Hs _].
    cbv zeta in Hs. rewrite Hs. split; [simpl; lia|].
    constructor; [|constructor]. split; [reflexivity | apply sanitize_valid_name].
Qed.

Lemma filter_partition {A : Type} (f : A -> bool) (l : list A) :
  length (List.filter f l) + length (List.filter (fun x => negb (f x)) l) = length l.
Proof.
  induction l as [|x l IH]; simpl; [reflexivity|]. destruct (f x); simpl; lia.
Qed.

(** No requested name is dropped silently: the descriptors attached and
    the warnings printed add up to the names requested. *)
Theorem attached_and_warned_cover_request (remote : Remote)
    (name instructions model : string) (tool_names : option (list string)) :
  failure (connections_list remote) = None ->
  let trace := fst (create_foundry_agent remote name instructions model tool_names) in
  exists definition,
    submitted trace = [(_sanitize_agent_name name, definition)]
    /\ length (default [] (def_tools definition)) + length (warnings trace)
       = length (given tool_names).
Proof.
  intros Hf. cbv zeta.
  destruct (create_foundry_agent_trace remote name instructions model tool_names
              (or_introl Hf)) as [Hs Hw].
  cbv zeta in Hs, Hw. eexists. split; [exact Hs|]. rewrite Hw.
  set (inventory := items (connections_list remote)).
  rewrite <- (filter_partition (has_connection inventory) (given tool_names)).
  f_equal. rewrite <- resolved_labels, length_map. unfold definition_of. cbn [def_tools].
  destruct (resolved_descriptors inventory (given tool_names)); reflexivity.
Qed.

(** A failure of the service on submission is not caught: it reaches the
    caller after the one submission, and the session is released. *)
Theorem create_failure_propagates (remote : Remote) (name instructions model : string)
    (tool_names : option (list string)) (e : exn) :
  failure (connections_list remote) = None \/ given tool_names = [] ->
  (forall definition,
     agents_create remote (_sanitize_agent_name name) definition = Raised e) ->
  snd (create_foundry_agent remote name instructions model tool_names) = Raised e
  /\ length (submitted (fst (create_foundry_agent remote name instructions model
                               tool_names))) = 1
  /\ last (fst (create_foundry_agent remote name instructions model tool_names))
     = Some (Call Release).
Proof.
  intros Hinv Hfail.
  destruct (create_foundry_agent_trace remote name instructions model tool_names Hinv)
    as [Hs _].
  cbv zeta in Hs. rewrite Hs. split; [|split; [reflexivity|]].
  - destruct (build_tools_run remote tool_names Hinv) as (t & Hb & _).
    unfold create_foundry_agent. rewrite !snd_bind, snd_with_session, Hb.
    cbn [snd emit]. rewrite bind_run. cbv beta. cbn [snd]. rewrite bind_emit. cbn [snd].
    rewrite Hfail. reflexivity.
  - unfold create_foundry_agent. rewrite !bind_emit. cbn [fst].
    rewrite fst_with_session.
    rewrite !app_comm_cons. apply last_snoc.
Qed.

End CreationMore.

(** ** The two chat paths *)
Section ChatMore.

Local Open Scope list_scope.

(** The texts of the chunks of a stream, those that are not empty. *)
Lemma stream_chunks (chunks : list value) :
  Forall (fun chunk => is_Some (lookup_attr chunk "text")) chunks ->
  for_each chunks
    (fun chunk =>
       let* text := lift (attr chunk "text") in
       if truthy text then emit (Yield text) else ret tt)
  = (map Yield (List.filter truthy (omap (fun chunk => lookup_attr chunk "text") chunks)),
     Ok tt).
Proof.
  induction 1 as [|chunk chunks [text Htext] _ IH]; [reflexivity|].
  cbn [for_each omap list_omap]. rewrite IH, Htext. unfold attr. rewrite Htext.
  rewrite bind_lift_ok. cbn [List.filter].
  destruct (truthy text); reflexivity.
Qed.

(** For a registered agent the chat opens one session, starts one stream
    with the name and the instructions of the configuration, and produces
    the texts of the chunks in arrival order, leaving out the empty ones.
    A failure of the stream is not turned into a fragment: it reaches the
    consumer after the fragments already produced. *)
Theorem chat_with_agent_streams (self : AgentFactory) (remote : Remote)
    (agent_id message : string) (thread_id : option string) (config : AgentConfig) :
  get_agent_config self agent_id = Some config ->
  let stream :=
    run_stream remote (config_name config) (config_instructions config) message in
  Forall (fun chunk => is_Some (lookup_attr chunk "text")) (items stream) ->
  chat_with_agent self remote agent_id message thread_id
  = (Call Connect
     :: Call (RunStream (config_name config) (config_instructions config) message)
     :: map Yield
          (List.filter truthy
             (omap (fun chunk => lookup_attr chunk "text") (items stream)))
     ++ [Call Release],
     match failure stream with
     | Some e => Raised e
     | None => Ok tt
     end).
Proof.
  intros Hconfig stream Hchunks. unfold chat_with_agent. rewrite Hconfig.
  rewrite bind_emit. unfold async_for. fold stream. rewrite (stream_chunks _ Hchunks).
  rewrite bind_run. cbv beta. cbn [fst snd with_session].
  destruct (failure stream); cbn; rewrite app_nil_r; reflexivity.
Qed.

(** A failure to fetch the agent is not caught: the chat produces no
    fragment, makes no completion call and raises that failure. *)
Theorem chat_fetch_failure_propagates (py_str : value -> string) (remote : Remote)
    (agent_id message : string) (thread_id : option string) (e : exn) :
  agents_get remote agent_id = Raised e ->
  chat_with_foundry_agent py_str remote agent_id message thread_id
  = ([Call Connect; Call (AgentsGet agent_id); Call Release], Raised e).
Proof.
  intros H. unfold chat_with_foundry_agent. rewrite bind_emit, H. reflexivity.
Qed.

Lemma inspect_agent_silent (py_str : value -> string) (agent : value) :
  fst (inspect_agent py_str agent) = [].
Proof.
  unfold inspect_agent.
  destruct (hasattr agent "versions" && truthy (getattr agent "versions" VNone));
    [|reflexivity].
  destruct (hasattr _ "latest" && truthy _); [|reflexivity].
  destruct (getattr _ "definition" VNone); try reflexivity.
  destruct (truthy _ && truthy _); [|reflexivity].
  destruct (iter _); reflexivity.
Qed.

Lemma classify_completes (has_mcp_tools : bool) (m : M unit) :
  snd (try_except m (classify has_mcp_tools)) = Ok tt.
Proof.
  destruct m as [t [[]|e]]; [reflexivity|]. unfold try_except, classify.
  destruct (contains "500" (exn_str e) && has_mcp_tools); reflexivity.
Qed.

(** Once the agent is fetched, has a name and has been inspected, the
    only failure that still reaches the consumer is one raised by
    [get_openai_client], which is called before the guarded block: then the
    chat produces no fragment, makes no completion call and raises that
    failure.  When the sub-client is handed out the chat never raises:
    whatever the completion call or the traversal of its answer raises ends
    up as a fragment, and the sequence ends normally. *)
Theorem chat_raises_only_before_completion (py_str : value -> string) (remote : Remote)
    (agent_id message : string) (thread_id : option string)
    (agent agent_name : value) (inspected : string * bool) :
  agents_get remote agent_id = Ok agent ->
  lookup_attr agent "name" = Some agent_name ->
  snd (inspect_agent py_str agent) = Ok inspected ->
  match openai_client remote with
  | Ok _ =>
      snd (chat_with_foundry_agent py_str remote agent_id message thread_id) = Ok tt
  | Raised e =>
      chat_with_foundry_agent py_str remote agent_id message thread_id
      = ([Call Connect; Call (AgentsGet agent_id); Call Release], Raised e)
  end.
Proof.
  intros Hget Hname Hinspect.
  assert (Hi : inspect_agent py_str agent = ([], Ok inspected)).
  { rewrite <- Hinspect, <- (inspect_agent_silent py_str agent).
    destruct (inspect_agent py_str agent). reflexivity. }
  unfold chat_with_foundry_agent.
  rewrite bind_emit, Hget, bind_lift_ok. unfold attr.
  rewrite Hname, bind_lift_ok, Hi, bind_run.
  destruct inspected as [version has_mcp_tools]. cbv beta iota.
  destruct (openai_client remote) as [[]|e].
  - rewrite bind_lift_ok, snd_with_session. cbn [snd app].
    apply classify_completes.
  - reflexivity.
Qed.

Lemma yield_parts (parts : list value) :
  for_each parts
    (fun content_part =>
       if hasattr content_part "text"
       then emit (Yield (getattr content_part "text" VNone))
       else ret tt)
  = (map Yield (part_texts parts), Ok tt).
Proof.
  induction parts as [|p parts IH]; [reflexivity|].
  cbn [for_each part_texts omap list_omap]. rewrite IH. unfold hasattr, getattr.
  fold (part_texts parts).
  destruct (lookup_attr p "text"); reflexivity.
Qed.

(** An output item without content that is true produces no fragment,
    whatever its type: the branch for typed messages never yields. *)
Theorem item_without_content_is_silent (output_item : value) :
  hasattr output_item "content" && truthy (getattr output_item "content" VNone) = false ->
  fragments (fst (extract_output output_item)) = []
  /\ (snd (extract_output output_item) = Ok tt
      \/ exists text, snd (extract_output output_item) = Raised (TypeError text)).
Proof.
  intros H. unfold extract_output. rewrite H.
  destruct (hasattr output_item "type" && eq_str _ "message");
    [|split; [reflexivity | left; reflexivity]].
  unfold hasattr, getattr in *.
  destruct (lookup_attr output_item "content") as [content|];
    [|split; [reflexivity | left; reflexivity]].
  cbn [default] in *. unfold yield_texts.
  destruct content as [|[]|n|[|c s]|[|x l]|[|x l]|cls attrs]; try discriminate;
    cbn; (split; [reflexivity | (left; reflexivity) || (right; eexists; reflexivity)]).
Qed.

Lemma extract_output_texts (output_item : value) :
  iterable_content output_item = true ->
  extract_output output_item = (map Yield (item_texts output_item), Ok tt).
Proof.
  unfold iterable_content, extract_output, item_texts, hasattr, getattr.
  destruct (lookup_attr output_item "content") as [content|];
    cbn [default from_option id andb].
  - intros H. set (typed := _ && eq_str _ "message").
    assert (Hy : forall parts, iter content = Ok parts ->
                   yield_texts content = (map Yield (part_texts parts), Ok tt)).
    { intros parts Hp. unfold yield_texts. rewrite Hp, bind_lift_ok. apply yield_parts. }
    destruct content as [| | |s|parts|entries|]; try discriminate.
    + destruct s as [|c s]; [destruct typed; reflexivity|]. apply Hy. reflexivity.
    + destruct parts as [|p parts]; [destruct typed; reflexivity|]. apply Hy. reflexivity.
    + destruct entries as [|p entries]; [destruct typed; reflexivity|].
      apply Hy. reflexivity.
  - intros _. destruct (_ && _); reflexivity.
Qed.

Lemma extract_all (output_items : list value) :
  forallb iterable_content output_items = true ->
  for_each output_items extract_output
  = (map Yield (concat (map item_texts output_items)), Ok tt).
Proof.
  induction output_items as [|item rest IH]; [reflexivity|].
  cbn [forallb]. intros [Hitem Hrest]%andb_true_iff.
  cbn [for_each map concat]. rewrite (extract_output_texts _ Hitem), (IH Hrest), bind_run.
  cbn [fst snd]. rewrite map_app. reflexivity.
Qed.

(** When the completion call answers with a list of output items whose
    contents can be iterated, the fragments are the texts of the content
    parts that have one, item after item and part after part in the order
    of the answer, and the sequence ends normally; an answer with an empty
    list produces nothing, not even an error.  (The call is made once the
    client has handed out its sub-client; if that raises, the chat raises
    before any completion call.) *)
Theorem chat_extracts_texts_in_order (py_str : value -> string) (remote : Remote)
    (agent_id message : string) (thread_id : option string)
    (agent agent_name response : value) (version : string) (has_mcp_tools : bool)
    (output_items : list value) :
  agents_get remote agent_id = Ok agent ->
  lookup_attr agent "name" = Some agent_name ->
  snd (inspect_agent py_str agent) = Ok (version, has_mcp_tools) ->
  responses_create remote message agent_name version = Ok response ->
  lookup_attr response "output" = Some (VList output_items) ->
  forallb iterable_content output_items = true ->
  chat_with_foundry_agent py_str remote agent_id message thread_id
  = match openai_client remote with
    | Ok _ =>
        (Call Connect :: Call (AgentsGet agent_id)
         :: Call (ResponsesCreate message agent_name version)
         :: map Yield (concat (map item_texts output_items)) ++ [Call Release],
         Ok tt)
    | Raised e => ([Call Connect; Call (AgentsGet agent_id); Call Release], Raised e)
    end.
Proof.
  intros Hget Hname Hinspect Hanswer Houtput Hitems.
  assert (Hi : inspect_agent py_str agent = ([], Ok (version, has_mcp_tools))).
  { rewrite <- Hinspect, <- (inspect_agent_silent py_str agent).
    destruct (inspect_agent py_str agent). reflexivity. }
  unfold chat_with_foundry_agent.
  rewrite bind_emit, Hget, bind_lift_ok. unfold attr. rewrite Hname, bind_lift_ok, Hi, bind_run.
  cbv beta iota. destruct (openai_client remote) as [[]|e']; [|reflexivity].
  rewrite bind_lift_ok, bind_emit, Hanswer, bind_lift_ok.
  unfold hasattr, getattr. rewrite Houtput. cbn [default from_option id].
  destruct output_items as [|item rest].
  - reflexivity.
  - cbn [truthy length Nat.eqb negb andb iter]. rewrite bind_lift_ok, (extract_all _ Hitems).
    cbn [fst snd try_except with_session app]. reflexivity.
Qed.

End ChatMore.

(** ** Sessions *)
Section Sessions.

Local Open Scope list_scope.

Lemma calls_app (t1 t2 : list event) : calls (t1 ++ t2) = calls t1 ++ calls t2.
Proof. unfold calls. apply omap_app. Qed.

Lemma tame_ret {A : Type} (a : A) : tame (ret a).
Proof. reflexivity. Qed.

Lemma tame_lift {A : Type} (r : result A) : tame (lift r).
Proof. reflexivity. Qed.

Lemma tame_raise {A : Type} (e : exn) : tame (@raise A e).
Proof. reflexivity. Qed.

Lemma tame_print (l : line) : tame (emit (Print l)).
Proof. reflexivity. Qed.

Lemma tame_yield (v : value) : tame (emit (Yield v)).
Proof. reflexivity. Qed.

Lemma tame_call (c : call) : is_session_call c = false -> tame (emit (Call c)).
Proof. unfold tame. cbn. intros ->. reflexivity. Qed.

Lemma tame_bind {A B : Type} (m : M A) (k : A -> M B) :
  tame m -> (forall a, tame (k a)) -> tame (bind m k).
Proof.
  unfold tame. intros Hm Hk. rewrite fst_bind, calls_app, forallb_app, Hm.
  destruct (snd m) as [a|e]; [apply Hk | reflexivity].
Qed.

Lemma tame_try_except {A : Type} (m : M A) (handler : exn -> M A) :
  tame m -> (forall e, tame (handler e)) -> tame (try_except m handler).
Proof.
  unfold tame. intros Hm Hh. destruct m as [t [a|e]]; [exact Hm|].
  unfold try_except. specialize (Hh e). destruct (handler e) as [t' r].
  cbn [fst] in *. rewrite calls_app, forallb_app, Hm, Hh. reflexivity.
Qed.

Lemma tame_for_each {A : Type} (l : list A) (body : A -> M unit) :
  (forall x, tame (body x)) -> tame (for_each l body).
Proof.
  intros Hb. induction l as [|x l IH]; [reflexivity|].
  cbn [for_each]. apply tame_bind; [apply Hb | intros _; exact IH].
Qed.

Lemma tame_async_for {A : Type} (s : stream A) (body : A -> M unit) :
  (forall x, tame (body x)) -> tame (async_for s body).
Proof.
  intros Hb. unfold async_for. apply tame_bind; [apply tame_for_each, Hb|].
  intros _. destruct (failure s); reflexivity.
Qed.

Lemma tame_async_fold {A S : Type} (s : stream A) (step : S -> A -> M S) (init : S) :
  (forall acc x, tame (step acc x)) -> tame (async_fold s step init).
Proof.
  intros Hs. unfold async_fold. apply tame_bind.
  - generalize (tame_ret init). generalize (ret init).
    induction (items s) as [|x l IH]; intros m Hm; [exact Hm|].
    cbn [foldl]. apply IH. apply tame_bind; [exact Hm | intros acc; apply Hs].
  - intros acc. destruct (failure s); reflexivity.
Qed.

Lemma bracket {A : Type} (before : list event) (body : M A) :
  tame body -> in_one_session before (before ++ fst (with_session body)).
Proof.
  intros H. exists (fst body). rewrite fst_with_session. split; [reflexivity | exact H].
Qed.

Ltac tame_step :=
  first
    [ apply tame_ret | apply tame_lift | apply tame_raise | apply tame_print
    | apply tame_yield | apply tame_call; reflexivity
    | apply tame_async_fold; intros ? ?
    | apply tame_async_for; intros ?
    | apply tame_for_each; intros ?
    | apply tame_try_except; [|intros ?]
    | apply tame_bind; [|intros ?]
    | match goal with
      | |- tame (if ?b then _ else _) => destruct b
      | |- tame (match ?x with _ => _ end) => destruct x
      end ].

Lemma tame_resolve_tools (connections_map : list (string * (string * string)))
    (names : list string) (tools : list MCPTool) :
  tame (resolve_tools connections_map names tools).
Proof.
  revert tools. induction names as [|n names IH]; intros tools; cbn [resolve_tools].
  - apply tame_ret.
  - destruct (assoc n connections_map); [apply IH|].
    apply tame_bind; [apply tame_print | intros _; apply IH].
Qed.

Lemma tame_process_tools (tools : value) : tame (process_tools tools).
Proof. unfold process_tools. repeat tame_step. Qed.

Lemma tame_summarize (py_str : value -> string) (agent : value) :
  tame (summarize py_str agent).
Proof.
  unfold summarize. apply tame_bind.
  - repeat first [apply tame_process_tools | tame_step].
  - intros [[[[model description] created_at] has] types]. repeat tame_step.
Qed.

Lemma tame_inspect_agent (py_str : value -> string) (agent : value) :
  tame (inspect_agent py_str agent).
Proof. unfold tame. rewrite inspect_agent_silent. reflexivity. Qed.

Lemma tame_extract_output (output_item : value) : tame (extract_output output_item).
Proof. unfold extract_output, yield_texts. repeat tame_step. Qed.

(** Every method that talks to the service does so inside one session of
    its own: the session is opened once, no other session is opened or
    released inside it, and it is released at the very end, whether the
    method returns or raises.  Creation prints its three lines first; the
    chat with a registered agent opens its session only when the agent is
    known. *)
Theorem calls_stay_in_one_session (py_str : value -> string) (remote : Remote) :
  in_one_session [] (fst (list_foundry_agents py_str remote))
  /\ in_one_session [] (fst (list_foundry_tools remote))
  /\ (forall name instructions model tool_names,
        in_one_session
          [Print LineCalled; Print (LineName name (_sanitize_agent_name name));
           Print (LineToolNames tool_names)]
          (fst (create_foundry_agent remote name instructions model tool_names)))
  /\ (forall agent_id message thread_id,
        in_one_session []
          (fst (chat_with_foundry_agent py_str remote agent_id message thread_id)))
  /\ (forall self agent_id message thread_id,
        is_Some (get_agent_config self agent_id) ->
        in_one_session [] (fst (chat_with_agent self remote agent_id message thread_id))).
Proof.
  split; [|split; [|split; [|split]]].
  - apply (bracket []). repeat first [apply tame_summarize | tame_step].
  - apply (bracket []). repeat tame_step.
  - intros. unfold create_foundry_agent. rewrite !bind_emit. cbn [fst snd].
    apply (bracket [_; _; _]). unfold build_tools.
    repeat first [apply tame_resolve_tools | tame_step].
  - intros. apply (bracket []).
    repeat first [apply tame_inspect_agent | apply tame_extract_output
                 | progress unfold classify | tame_step].
  - intros self agent_id message thread_id [config Hconfig]. unfold chat_with_agent.
    rewrite Hconfig. apply (bracket []). repeat tame_step.
Qed.

End Sessions.

(** ** What the tools of an agent change in a chat *)
Section ChatTools.

Local Open Scope list_scope.

Lemma chat_unfolded (py_str : value -> string) (remote : Remote)
    (agent_id message : string) (thread_id : option string)
    (agent agent_name : value) (version : string) (has_mcp_tools : bool) :
  agents_get remote agent_id = Ok agent ->
  lookup_attr agent "name" = Some agent_name ->
  snd (inspect_agent py_str agent) = Ok (version, has_mcp_tools) ->
  chat_with_foundry_agent py_str remote agent_id message thread_id
  = with_session
      (let* _ := emit (Call (AgentsGet agent_id)) in
       let* _ := lift (openai_client remote) in
       try_except (completion remote message agent_name version)
         (classify has_mcp_tools)).
Proof.
  intros Hget Hname Hinspect.
  assert (Hi : inspect_agent py_str agent = ([], Ok (version, has_mcp_tools))).
  { rewrite <- Hinspect, <- (inspect_agent_silent py_str agent).
    destruct (inspect_agent py_str agent). reflexivity. }
  unfold chat_with_foundry_agent. f_equal. f_equal.
  rewrite Hget, bind_lift_ok. unfold attr. rewrite Hname, bind_lift_ok, Hi.
  unfold bind at 1. cbv beta iota. destruct (bind _ _). reflexivity.
Qed.

Lemma inspect_agent_version (py_str : value -> string) (id name : value)
    (latest : list (string * value)) (definition : value)
    (version : string) (has_mcp_tools : bool) :
  snd (inspect_agent py_str (remote_agent id name latest definition))
  = Ok (version, has_mcp_tools) ->
  version = addressed_version py_str latest.
Proof.
  unfold inspect_agent, remote_agent, addressed_version. cbn.
  unfold hasattr, getattr. cbn.
  destruct definition as [| | | | |entries|]; cbn;
    try (destruct (assoc "version" latest); intros [= <- <-]; reflexivity).
  destruct (negb _ && truthy _);
    [|destruct (assoc "version" latest); intros [= <- <-]; reflexivity].
  destruct (iter _); cbn; [|discriminate].
  destruct (assoc "version" latest); intros [= <- <-]; reflexivity.
Qed.

Lemma classify_choice (m : M unit) (h1 h2 : bool) :
  calls (fst (try_except m (classify h1))) = calls (fst (try_except m (classify h2)))
  /\ snd (try_except m (classify h1)) = snd (try_except m (classify h2)).
Proof.
  destruct m as [t [[]|e]]; [split; reflexivity|]. unfold try_except, classify.
  destruct (contains "500" (exn_str e)); destruct h1, h2; cbn [fst snd andb emit];
    rewrite ?calls_app; split; reflexivity.
Qed.

(** The tools of the fetched agent decide nothing but the wording of the
    error fragment: two agents that differ only in their definition are
    addressed by the same name and version, lead to the same calls and end
    the same way; the whole run is the same when both are found to have, or
    not to have, an MCP tool. *)
Theorem tools_only_select_error_text (py_str : value -> string) (remote : Remote)
    (agent_id message : string) (thread_id : option string) (id name : value)
    (latest : list (string * value)) (d1 d2 : value)
    (v1 v2 : string) (h1 h2 : bool) :
  snd (inspect_agent py_str (remote_agent id name latest d1)) = Ok (v1, h1) ->
  snd (inspect_agent py_str (remote_agent id name latest d2)) = Ok (v2, h2) ->
  let chat d :=
    chat_with_foundry_agent py_str (with_fetched remote (remote_agent id name latest d))
      agent_id message thread_id in
  v1 = addressed_version py_str latest
  /\ v2 = v1
  /\ calls (fst (chat d1)) = calls (fst (chat d2))
  /\ snd (chat d1) = snd (chat d2)
  /\ (h1 = h2 -> chat d1 = chat d2).
Proof.
  intros H1 H2 chat.
  pose proof (inspect_agent_version _ _ _ _ _ _ _ H1) as E1.
  pose proof (inspect_agent_version _ _ _ _ _ _ _ H2) as E2.
  split; [exact E1|]. split; [congruence|]. subst v1 v2.
  unfold chat.
  rewrite (chat_unfolded py_str (with_fetched remote (remote_agent id name latest d1))
             agent_id message thread_id _ name _ h1 eq_refl eq_refl H1).
  rewrite (chat_unfolded py_str (with_fetched remote (remote_agent id name latest d2))
             agent_id message thread_id _ name _ h2 eq_refl eq_refl H2).
  change (completion (with_fetched remote _) message name)
    with (completion remote message name).
  change (openai_client (with_fetched remote _)) with (openai_client remote).
  destruct (openai_client remote) as [[]|e]; [|repeat split].
  rewrite !bind_lift_ok.
  set (m := completion remote message name (addressed_version py_str latest)).
  destruct (classify_choice m h1 h2) as [Hc Hs].
  rewrite !fst_with_session, !snd_with_session, !bind_emit. cbn [fst snd].
  split; [|split].
  - unfold calls in *. cbn [omap list_omap app]. rewrite !omap_app, Hc. reflexivity.
  - exact Hs.
  - intros ->. reflexivity.
Qed.

End ChatTools.

(** ** The helper of the payments script *)
Section ConnectionInfo.

Local Open Scope list_scope.

Lemma scan_connections_first (n : string) (ending : option exn) (conns : list Connection) :
  scan_connections n ending conns
  = ([], match first_named n conns with
         | Some conn => Ok (Some (conn_info conn))
         | None =>
             match ending with
             | Some e => Raised e
             | None => Ok None
             end
         end).
Proof.
  unfold first_named. induction conns as [|conn rest IH]; cbn [scan_connections List.find].
  - destruct ending; reflexivity.
  - destruct (String.eqb (conn_name conn) n); [reflexivity | exact IH].
Qed.

Lemma get_connection_info_first_match_aux (remote : Remote) (n : string) :
  snd (get_connection_info remote n)
  = match first_named n (items (connections_list remote)) with
    | Some conn => Ok (Some (conn_info conn))
    | None =>
        match failure (connections_list remote) with
        | Some e => Raised e
        | None => Ok None
        end
    end.
Proof.
  unfold get_connection_info. rewrite bind_emit, scan_connections_first. reflexivity.
Qed.

(** [get_connection_info] returns the id and the url of the first
    connection that bears the name.  A hit hides a failure of the rest of
    the enumeration; without a hit the failure is raised, and [None] is
    returned only when the whole enumeration went through. *)
Theorem get_connection_info_first_match (remote : Remote) (n : string) :
  get_connection_info remote n
  = ([Call ConnectionsList],
     match first_named n (items (connections_list remote)) with
     | Some conn => Ok (Some (conn_id conn, conn_url conn))
     | None =>
         match failure (connections_list remote) with
         | Some e => Raised e
         | None => Ok None
         end
     end).
Proof.
  unfold get_connection_info. rewrite bind_emit, scan_connections_first. reflexivity.
Qed.

Lemma first_named_name (n : string) (inventory : list Connection) (conn : Connection) :
  first_named n inventory = Some conn -> conn_name conn = n.
Proof.
  unfold first_named. intros H. apply List.find_some in H as [_ H].
  apply String.eqb_eq, H.
Qed.

Lemma first_is_last_when_distinct (n : string) (inventory : list Connection) :
  NoDup (map conn_name inventory) ->
  first_named n inventory = last_named n inventory.
Proof.
  induction inventory as [|conn rest IH]; [reflexivity|].
  cbn [map]. intros Hd. apply NoDup_cons in Hd as [Hnot Hd].
  cbn [first_named List.find last_named]. fold (first_named n rest).
  rewrite <- (IH Hd). destruct (String.eqb (conn_name conn) n) eqn:E.
  - apply String.eqb_eq in E. destruct (first_named n rest) as [found|] eqn:Ef;
      [|reflexivity].
    exfalso. apply Hnot. apply first_named_name in Ef as Hn.
    unfold first_named in Ef. apply List.find_some in Ef as [Hin _].
    apply list_elem_of_In, in_map_iff. exists found. split; [congruence | exact Hin].
  - destruct (first_named n rest); reflexivity.
Qed.

Lemma conn_url_target (conn : Connection) :
  conn_url conn = match conn_target conn with
                  | Some url => url
                  | None => EmptyString
                  end.
Proof. unfold conn_url. destruct (conn_target conn); reflexivity. Qed.

(** What [create_foundry_agent] submits and warns about when one name is
    requested. *)
Lemma create_for_one_name (remote : Remote) (name instructions model n : string) :
  failure (connections_list remote) = None ->
  let trace := fst (create_foundry_agent remote name instructions model (Some [n])) in
  submitted trace
  = [(_sanitize_agent_name name,
      {| def_model := model; def_instructions := instructions;
         def_tools :=
           match last_named n (items (connections_list remote)) with
           | Some conn => Some [descriptor n (conn_info conn)]
           | None => None
           end |})]
  /\ warnings trace
     = match last_named n (items (connections_list remote)) with
       | Some _ => []
       | None => [n]
       end.
Proof.
  intros Hf.
  destruct (create_foundry_agent_trace remote name instructions model (Some [n])
              (or_introl Hf)) as [Hs Hw].
  cbv zeta in *. rewrite Hs, Hw. unfold definition_of, resolved_descriptors, has_connection.
  unfold given. cbn [default from_option id omap list_omap List.filter].
  destruct (last_named n _); split; reflexivity.
Qed.

(** When the names of the inventory are distinct, the helper of the
    script and the creation of the factory resolve a name to the same
    connection, the first that bears it: the helper returns its id and its
    url (the empty string without a target), [create_foundry_agent] called
    with this one name submits a definition whose only tool carries the
    name as label and that id and url, and warns about nothing; when no
    connection bears the name the helper returns [None], and the factory
    warns about the name and submits a definition without tools. *)
Theorem helper_and_factory_agree (remote : Remote) (name instructions model n : string) :
  let found :=
    match first_named n (items (connections_list remote)) with
    | Some conn =>
        Some (conn_id conn,
              match conn_target conn with
              | Some url => url
              | None => EmptyString
              end)
    | None => None
    end in
  let trace := fst (create_foundry_agent remote name instructions model (Some [n])) in
  NoDup (map conn_name (items (connections_list remote))) ->
  failure (connections_list remote) = None ->
  snd (get_connection_info remote n) = Ok found
  /\ submitted trace
     = [(_sanitize_agent_name name,
         {| def_model := model; def_instructions := instructions;
            def_tools :=
              match found with
              | Some (id, url) =>
                  Some [ {| server_label := n;
                            server_url := url;
                            project_connection_id := id;
                            allowed_tools := [];
                            require_approval := "never" |} ]
              | None => None
              end |})]
  /\ warnings trace = match found with
                      | Some _ => []
                      | None => [n]
                      end.
Proof.
  intros found trace Hd Hf. subst found trace.
  destruct (create_for_one_name remote name instructions model n Hf) as [Hs Hw].
  cbv zeta in Hs, Hw. rewrite Hs, Hw, get_connection_info_first_match_aux, Hf.
  rewrite (first_is_last_when_distinct n _ Hd).
  destruct (last_named n _) as [conn|]; [|repeat split].
  unfold conn_info, descriptor. cbn [fst snd]. rewrite conn_url_target.
  repeat split.
Qed.

(** With several connections of one name the two disagree: the helper
    returns the id and the url of the first, while [create_foundry_agent]
    called with the name submits a definition whose only tool carries the id
    and the url of the last, which is not the tool the helper's answer
    stands for. *)
Theorem helper_and_factory_disagree (remote : Remote)
    (name instructions model n : string) (first last : Connection) :
  let url_of := fun conn : Connection =>
    match conn_target conn with
    | Some url => url
    | None => EmptyString
    end in
  let tool_for := fun conn : Connection =>
    {| server_label := n;
       server_url := url_of conn;
       project_connection_id := conn_id conn;
       allowed_tools := [];
       require_approval := "never" |} in
  failure (connections_list remote) = None ->
  first_named n (items (connections_list remote)) = Some first ->
  last_named n (items (connections_list remote)) = Some last ->
  (conn_id first, url_of first) <> (conn_id last, url_of last) ->
  snd (get_connection_info remote n) = Ok (Some (conn_id first, url_of first))
  /\ submitted (fst (create_foundry_agent remote name instructions model (Some [n])))
     = [(_sanitize_agent_name name,
         {| def_model := model; def_instructions := instructions;
            def_tools := Some [tool_for last] |})]
  /\ tool_for last <> tool_for first.
Proof.
  intros url_of tool_for Hf Hfirst Hlast Hne.
  destruct (create_for_one_name remote name instructions model n Hf) as [Hs _].
  cbv zeta in Hs. rewrite Hs, get_connection_info_first_match_aux, Hfirst, Hlast.
  unfold conn_info, descriptor. cbn [fst snd]. rewrite !conn_url_target.
  split; [reflexivity|]. split; [reflexivity|].
  intros H. apply Hne. unfold tool_for in H. injection H as Hurl Hid.
  rewrite Hurl, Hid. reflexivity.
Qed.

End ConnectionInfo.

(** ** The further properties on the sample data *)
Section MoreWitnesses.

Local Open Scope list_scope.

Lemma listing_all_or_nothing_witness :
  exists e, snd (list_foundry_agents sample_str broken_remote) = Raised e.
Proof.
  apply (listing_all_or_nothing sample_str broken_remote). left.
  exists malformed_agent. eexists. split; [right; left; reflexivity | reflexivity].
Defined.

Lemma listing_tags_follow_tools_witness :
  exists s,
    snd (list_foundry_agents sample_str
           (with_agents (sample_remote VNone)
              {| items := [as_mapping sample_shaped]; failure := None |})) = Ok [s]
    /\ snd (list_foundry_agents sample_str
              (with_agents (sample_remote VNone)
                 {| items := [as_object sample_shaped]; failure := None |})) = Ok [s]
    /\ has_tools s = true
    /\ tool_types s = Some [VStr "mcp"; VStr "unknown"]
    /\ length (default [] (tool_types s)) = 2
    /\ (forall entries, assoc "type" entries = None ->
          type_of_tool (VDict entries) = VStr "unknown").
Proof.
  apply (listing_tags_follow_tools sample_str (sample_remote VNone) sample_shaped
           mcp_tool [VDict []]).
  reflexivity.
Defined.

Lemma create_aborts_when_inventory_fails_witness :
  create_foundry_agent broken_remote "FAQ Bot!!" "Answer FAQs" "gpt-4o" (Some ["known"])
  = ([Print LineCalled; Print (LineName "FAQ Bot!!" "FAQ-Bot");
      Print (LineToolNames (Some ["known"])); Call Connect;
      Print (LineProcessing 1); Call ConnectionsList; Call Release],
     Raised server_error).
Proof.
  apply (create_aborts_when_inventory_fails broken_remote "FAQ Bot!!" "Answer FAQs"
           "gpt-4o" (Some ["known"]) server_error); [discriminate | reflexivity].
Defined.

Lemma create_without_names_skips_inventory_witness :
  calls (fst (create_foundry_agent broken_remote "FAQ Bot!!" "Answer FAQs" "gpt-4o"
                (Some [])))
  = [Connect;
     AgentsCreate "FAQ-Bot"
       {| def_model := "gpt-4o"; def_instructions := "Answer FAQs"; def_tools := None |};
     Release].
Proof.
  apply (create_without_names_skips_inventory broken_remote "FAQ Bot!!" "Answer FAQs"
           "gpt-4o" (Some [])).
  reflexivity.
Defined.

Lemma attached_and_warned_cover_request_witness :
  exists definition,
    submitted (fst sample_creation) = [("FAQ-Bot", definition)]
    /\ length (default [] (def_tools definition)) + length (warnings (fst sample_creation))
       = 2.
Proof.
  apply (attached_and_warned_cover_request (sample_remote VNone) "FAQ Bot!!" "Answer FAQs"
           "gpt-4o" (Some ["known"; "unknown"])).
  reflexivity.
Defined.

Lemma create_failure_propagates_witness :
  snd (create_foundry_agent broken_remote "FAQ Bot!!" "Answer FAQs" "gpt-4o" None)
  = Raised server_error
  /\ length (submitted (fst (create_foundry_agent broken_remote "FAQ Bot!!" "Answer FAQs"
                               "gpt-4o" None))) = 1
  /\ last (fst (create_foundry_agent broken_remote "FAQ Bot!!" "Answer FAQs" "gpt-4o"
                  None)) = Some (Call Release).
Proof.
  apply (create_failure_propagates broken_remote "FAQ Bot!!" "Answer FAQs" "gpt-4o" None
           server_error); [right; reflexivity | intros definition; reflexivity].
Defined.

Lemma chat_with_agent_streams_witness :
  chat_with_agent registered_factory broken_remote "1a2b3c4d" "Hola" None
  = (Call Connect
     :: Call (RunStream (config_name registered_config)
                (config_instructions registered_config) "Hola")
     :: [Yield (VStr "Hola"); Yield (VStr " mundo"); Call Release],
     Raised server_error).
Proof.
  apply (chat_with_agent_streams registered_factory broken_remote "1a2b3c4d" "Hola" None
           registered_config).
  - reflexivity.
  - repeat constructor; eexists; reflexivity.
Defined.

Lemma chat_fetch_failure_propagates_witness :
  chat_with_foundry_agent sample_str broken_remote "agent-1" "Hola" None
  = ([Call Connect; Call (AgentsGet "agent-1"); Call Release], Raised server_error).
Proof.
  apply (chat_fetch_failure_propagates sample_str broken_remote "agent-1" "Hola" None).
  reflexivity.
Defined.

Lemma chat_raises_only_before_completion_witness :
  snd (chat_with_foundry_agent sample_str (sample_remote (tool_bearing VDict)) "agent-1"
         "Hola" None) = Ok tt
  /\ chat_with_foundry_agent sample_str clientless_remote "agent-1" "Hola" None
     = ([Call Connect; Call (AgentsGet "agent-1"); Call Release], Raised client_error).
Proof.
  split.
  - exact (chat_raises_only_before_completion sample_str
             (sample_remote (tool_bearing VDict)) "agent-1" "Hola" None
             (tool_bearing VDict) (VStr "FavoritePaymentsAgent") ("2"%string, true)
             eq_refl eq_refl eq_refl).
  - exact (chat_raises_only_before_completion sample_str clientless_remote
             "agent-1" "Hola" None (tool_bearing VDict) (VStr "FavoritePaymentsAgent")
             ("2"%string, true) eq_refl eq_refl eq_refl).
Defined.

Lemma item_without_content_is_silent_witness :
  fragments (fst (extract_output silent_item)) = []
  /\ (snd (extract_output silent_item) = Ok tt
      \/ exists text, snd (extract_output silent_item) = Raised (TypeError text)).
Proof. apply (item_without_content_is_silent silent_item). reflexivity. Defined.

Lemma chat_extracts_texts_in_order_witness :
  chat_with_foundry_agent sample_str answering_remote "agent-1" "Hola" None
  = (Call Connect :: Call (AgentsGet "agent-1")
     :: Call (ResponsesCreate "Hola" (VStr "FavoritePaymentsAgent") "2")
     :: [Yield (VStr "Hola"); Yield (VStr " mundo"); Call Release],
     Ok tt).
Proof.
  exact (chat_extracts_texts_in_order sample_str answering_remote "agent-1" "Hola" None
           (tool_bearing VDict) (VStr "FavoritePaymentsAgent") sample_response "2" true
           sample_output eq_refl eq_refl eq_refl eq_refl eq_refl eq_refl).
Defined.

Lemma calls_stay_in_one_session_witness :
  in_one_session []
    (fst (chat_with_agent registered_factory broken_remote "1a2b3c4d" "Hola" None)).
Proof.
  apply (proj2 (proj2 (proj2 (proj2 (calls_stay_in_one_session sample_str broken_remote))))).
  exists registered_config. reflexivity.
Defined.

Lemma tools_only_select_error_text_witness :
  calls (fst (chat_with_foundry_agent sample_str
                (with_fetched (sample_remote VNone) (tool_bearing VDict))
                "agent-1" "Hola" None))
  = calls (fst (chat_with_foundry_agent sample_str
                  (with_fetched (sample_remote VNone)
                     (tool_bearing (VObj "PromptAgentDefinition")))
                  "agent-1" "Hola" None)).
Proof.
  exact (proj1 (proj2 (proj2
    (tools_only_select_error_text sample_str (sample_remote VNone) "agent-1" "Hola" None
       (VStr "agent-1") (VStr "FavoritePaymentsAgent")
       [("version", VStr "2"); ("description", VNone); ("created_at", VStr "2025-01-01")]
       (VDict [("model", VStr "gpt-4o"); ("tools", VList [mcp_tool])])
       (VObj "PromptAgentDefinition" [("model", VStr "gpt-4o"); ("tools", VList [mcp_tool])])
       "2" "2" true false eq_refl eq_refl)))).
Defined.

Lemma distinct_names :
  NoDup (map conn_name (items (connections_list distinct_remote))).
Proof.
  cbn. repeat (apply NoDup_cons_2;
               [rewrite ?elem_of_cons, elem_of_nil; intuition discriminate|]).
  apply NoDup_nil_2.
Qed.

Lemma helper_and_factory_agree_witness :
  (snd (get_connection_info distinct_remote "other")
   = Ok (Some ("/connections/other", "https://other.example/mcp"))
   /\ submitted (fst (create_foundry_agent distinct_remote "FAQ Bot!!" "Answer FAQs"
                        "gpt-4o" (Some ["other"])))
      = [("FAQ-Bot",
          {| def_model := "gpt-4o"; def_instructions := "Answer FAQs";
             def_tools :=
               Some [ {| server_label := "other";
                         server_url := "https://other.example/mcp";
                         project_connection_id := "/connections/other";
                         allowed_tools := [];
                         require_approval := "never" |} ] |})]
   /\ warnings (fst (create_foundry_agent distinct_remote "FAQ Bot!!" "Answer FAQs"
                       "gpt-4o" (Some ["other"]))) = [])
  /\ (snd (get_connection_info distinct_remote "untargeted")
      = Ok (Some ("/connections/untargeted", EmptyString))
      /\ submitted (fst (create_foundry_agent distinct_remote "FAQ Bot!!" "Answer FAQs"
                           "gpt-4o" (Some ["untargeted"])))
         = [("FAQ-Bot",
             {| def_model := "gpt-4o"; def_instructions := "Answer FAQs";
                def_tools :=
                  Some [ {| server_label := "untargeted";
                            server_url := EmptyString;
                            project_connection_id := "/connections/untargeted";
                            allowed_tools := [];
                            require_approval := "never" |} ] |})]
      /\ warnings (fst (create_foundry_agent distinct_remote "FAQ Bot!!" "Answer FAQs"
                          "gpt-4o" (Some ["untargeted"]))) = [])
  /\ (snd (get_connection_info distinct_remote "missing") = Ok None
      /\ submitted (fst (create_foundry_agent distinct_remote "FAQ Bot!!" "Answer FAQs"
                           "gpt-4o" (Some ["missing"])))
         = [("FAQ-Bot",
             {| def_model := "gpt-4o"; def_instructions := "Answer FAQs";
                def_tools := None |})]
      /\ warnings (fst (create_foundry_agent distinct_remote "FAQ Bot!!" "Answer FAQs"
                          "gpt-4o" (Some ["missing"]))) = ["missing"]).
Proof.
  split; [|split].
  - exact (helper_and_factory_agree distinct_remote "FAQ Bot!!" "Answer FAQs" "gpt-4o"
             "other" distinct_names eq_refl).
  - exact (helper_and_factory_agree distinct_remote "FAQ Bot!!" "Answer FAQs" "gpt-4o"
             "untargeted" distinct_names eq_refl).
  - exact (helper_and_factory_agree distinct_remote "FAQ Bot!!" "Answer FAQs" "gpt-4o"
             "missing" distinct_names eq_refl).
Defined.

Lemma helper_and_factory_disagree_witness :
  snd (get_connection_info answering_remote "known")
  = Ok (Some ("/connections/known", "https://known.example/mcp"))
  /\ submitted (fst (create_foundry_agent answering_remote "FAQ Bot!!" "Answer FAQs"
                       "gpt-4o" (Some ["known"])))
     = [("FAQ-Bot",
         {| def_model := "gpt-4o"; def_instructions := "Answer FAQs";
            def_tools :=
              Some [ {| server_label := "known";
                        server_url := EmptyString;
                        project_connection_id := "/connections/known-2";
                        allowed_tools := [];
                        require_approval := "never" |} ] |})]
  /\ {| server_label := "known";
        server_url := EmptyString;
        project_connection_id := "/connections/known-2";
        allowed_tools := [];
        require_approval := "never" |}
     <> {| server_label := "known";
           server_url := "https://known.example/mcp";
           project_connection_id := "/connections/known";
           allowed_tools := [];
           require_approval := "never" |}.
Proof.
  apply (helper_and_factory_disagree answering_remote "FAQ Bot!!" "Answer FAQs" "gpt-4o"
           "known" known_connection second_known);
    [reflexivity | reflexivity | reflexivity | discriminate].
Defined.

End MoreWitnesses.

(** ** The tools endpoint, and an answer that breaks off *)
Section EndpointAndBreak.

Local Open Scope list_scope.

(** With a factory in place the endpoint [list_tools] answers with the
    tools of the REMOTE_TOOL connections, in enumeration order, or, when
    the listing raises, with status 500 and the text of the failure after a
    fixed prefix, which it also prints; it never lets the failure through. *)
Theorem list_tools_answers (factory : AgentFactory) (remote : Remote) :
  answer (list_tools (Some factory) remote)
  = match failure (connections_list remote) with
    | None =>
        Response (map tool_response_of
                    (List.filter is_remote_tool (items (connections_list remote))))
    | Some e => HTTPException 500 ("Error listing tools: " ++ exn_str e)%string
    end
  /\ console (list_tools (Some factory) remote)
     = match failure (connections_list remote) with
       | None => []
       | Some e => [("Error listing tools: " ++ exn_str e)%string]
       end
  /\ factory_trace (list_tools (Some factory) remote)
     = [Call Connect; Call ConnectionsList; Call Release].
Proof.
  unfold list_tools, list_foundry_tools.
  rewrite bind_emit, async_fold_pure, foldl_tools. cbn [fst snd with_session app].
  destruct (failure (connections_list remote)); cbn [answer console factory_trace];
    [repeat split|].
  split; [|split; reflexivity]. f_equal. rewrite map_map. reflexivity.
Qed.

Lemma extract_output_raise_silent (output_item : value) (e : exn) :
  snd (extract_output output_item) = Raised e -> fst (extract_output output_item) = [].
Proof.
  assert (Hy : forall content, snd (yield_texts content) = Raised e ->
                 fst (yield_texts content) = []).
  { intros content. unfold yield_texts. destruct (iter content) as [parts|e'].
    - rewrite bind_lift_ok, yield_parts. discriminate.
    - reflexivity. }
  unfold extract_output.
  destruct (hasattr output_item "content" && truthy _); [apply Hy|].
  destruct (hasattr output_item "type" && eq_str _ "message"); [|discriminate].
  destruct (hasattr output_item "content"); [apply Hy | discriminate].
Qed.

Lemma extract_until_break (good rest : list value) (bad : value) (e : exn) :
  forallb iterable_content good = true ->
  snd (extract_output bad) = Raised e ->
  for_each (good ++ bad :: rest) extract_output
  = (map Yield (concat (map item_texts good)), Raised e).
Proof.
  intros Hgood Hbad. induction good as [|item good IH].
  - cbn [app for_each map concat]. pose proof (extract_output_raise_silent _ _ Hbad) as Ht.
    destruct (extract_output bad) as [t r]. cbn [fst snd] in *. subst. reflexivity.
  - cbn [forallb] in Hgood. apply andb_true_iff in Hgood as [Hitem Hgood].
    cbn [app for_each map concat]. rewrite (extract_output_texts _ Hitem), (IH Hgood).
    cbn [bind]. rewrite map_app. reflexivity.
Qed.

Lemma classify_appends (has_mcp_tools : bool) (t : list event) (e : exn) :
  try_except (t, Raised e) (classify has_mcp_tools)
  = (t ++ [Yield (error_fragment has_mcp_tools e)], Ok tt).
Proof.
  unfold try_except, classify, error_fragment.
  destruct (contains "500" (exn_str e) && has_mcp_tools); reflexivity.
Qed.

Lemma fragments_of_yields (texts : list value) : fragments (map Yield texts) = texts.
Proof.
  unfold fragments. induction texts as [|x l IH]; [reflexivity|].
  cbn [map omap list_omap]. f_equal. exact IH.
Qed.

(** An answer that breaks off: when the traversal reaches an output item
    on which it raises (its content cannot be iterated), the fragments of
    the items before it have been produced, one error fragment follows,
    worded as for a failed call, the items after it are not looked at, and
    the sequence ends normally.  (The call is made once the client has
    handed out its sub-client; if that raises, the chat raises before any
    completion call.) *)
Theorem chat_breaks_off_with_error_fragment (py_str : value -> string) (remote : Remote)
    (agent_id message : string) (thread_id : option string)
    (agent agent_name response bad : value) (version : string) (has_mcp_tools : bool)
    (good rest : list value) (e : exn) :
  agents_get remote agent_id = Ok agent ->
  lookup_attr agent "name" = Some agent_name ->
  snd (inspect_agent py_str agent) = Ok (version, has_mcp_tools) ->
  responses_create remote message agent_name version = Ok response ->
  lookup_attr response "output" = Some (VList (good ++ bad :: rest)) ->
  forallb iterable_content good = true ->
  snd (extract_output bad) = Raised e ->
  match openai_client remote with
  | Ok _ =>
      fragments (fst (chat_with_foundry_agent py_str remote agent_id message thread_id))
      = concat (map item_texts good) ++ [error_fragment has_mcp_tools e]
      /\ snd (chat_with_foundry_agent py_str remote agent_id message thread_id) = Ok tt
  | Raised e' =>
      chat_with_foundry_agent py_str remote agent_id message thread_id
      = ([Call Connect; Call (AgentsGet agent_id); Call Release], Raised e')
  end.
Proof.
  intros Hget Hname Hinspect Hanswer Houtput Hgood Hbad.
  rewrite (chat_unfolded py_str remote agent_id message thread_id agent agent_name
             version has_mcp_tools Hget Hname Hinspect).
  destruct (openai_client remote) as [[]|e']; [|reflexivity].
  rewrite bind_lift_ok.
  unfold completion. rewrite bind_emit, Hanswer, bind_lift_ok.
  unfold hasattr, getattr. rewrite Houtput. cbn [default from_option id].
  assert (Ht : truthy (VList (good ++ bad :: rest)) = true)
    by (destruct good; reflexivity).
  rewrite Ht. cbn [andb iter]. rewrite bind_lift_ok, (extract_until_break _ _ _ _ Hgood Hbad).
  rewrite bind_emit. cbn [fst snd]. rewrite classify_appends. cbn [fst snd with_session].
  split; [|reflexivity]. unfold fragments. cbn [omap list_omap app].
  rewrite !omap_app. cbn [omap list_omap]. rewrite app_nil_r. f_equal.
  apply fragments_of_yields.
Qed.

Lemma chat_breaks_off_with_error_fragment_witness :
  fragments (fst (chat_with_foundry_agent sample_str interrupted_remote "agent-1" "Hola"
                    None))
  = [VStr "Hola"; VStr " mundo";
     VStr (raw_error "'int' object is not iterable")]
  /\ snd (chat_with_foundry_agent sample_str interrupted_remote "agent-1" "Hola" None)
     = Ok tt.
Proof.
  exact (chat_breaks_off_with_error_fragment sample_str interrupted_remote "agent-1" "Hola"
           None (tool_bearing VDict) (VStr "FavoritePaymentsAgent") interrupted_response
           unreadable_item "2" true sample_output [silent_item]
           (TypeError "'int' object is not iterable")
           eq_refl eq_refl eq_refl eq_refl eq_refl eq_refl eq_refl).
Defined.

End EndpointAndBreak.
